(** * Bulk deletion orchestrator of acr-cli: the Purger

    A shallow embedding of [internal/worker/purger.go] (the version that
    logs through the structured logger) and of the earlier version of the
    same file that prints with [fmt.Printf] and also holds
    [deleteManifest] and [PurgeUntaggedManifests].

    The registry client is an interface of the program
    ([api.AcrCLIClientInterface]); it is a type class here, over an
    abstract registry state that every call may read and change.  The
    worker pool (pond) is not part of the repository: its task group is
    modelled from section 4.1 of the specification, with the scheduler's
    choices made explicit as a schedule given to every run. *)

From stdpp Require Import base option list gmap strings.
From Stdlib Require Import ZArith Lia.

Open Scope Z_scope.
Open Scope string_scope.
Open Scope list_scope.

(** ** Data of the registry API *)

(** Go's [error] interface; [nil] is [None]. *)
Definition error := string.

(** [*http.Response], of which only the status code is read. *)
Record http_Response := { StatusCode : Z }.

(** [autorest.Response] embeds a [*http.Response]. *)
Record autorest_Response := { Response : option http_Response }.

Definition StatusNotFound : Z := 404.

(** [acr.TagAttributesBase]: [Name] is a [*string]; the other fields are
    not read by the purger. *)
Record TagAttributesBase := { Name : option string }.

(** Modelled from the spec: a page record "exposes digest (optional) and
    enough metadata for the external is-independently-deletable
    predicate"; the metadata are the two lock flags of the record. *)
Record ChangeableAttributes :=
  { DeleteEnabled : option bool; WriteEnabled : option bool }.

Record ManifestAttributesBase :=
  { Digest : option string; Attributes : option ChangeableAttributes }.

(** [acr.Manifests] embeds an [autorest.Response] by value and holds a
    pointer to the slice of records. *)
Record Manifests :=
  { Manifests_Response : autorest_Response;
    ManifestsAttributes : option (list ManifestAttributesBase) }.

(** What a delete call returns: a pointer to an [autorest.Response] and
    an [error]. *)
Definition DeleteReply : Type := option autorest_Response * option error.

(** What a listing call returns: a pointer to an [acr.Manifests] and an
    [error]. *)
Definition ListReply : Type := option Manifests * option error.

(** [api.AcrCLIClientInterface], restricted to the three operations the
    purger calls.  [World] is the state of the remote registry. *)
Class AcrCLIClientInterface (World : Type) := {
  DeleteAcrTag : string -> string -> World -> DeleteReply * World;
  DeleteManifest : string -> string -> World -> DeleteReply * World;
  GetAcrManifests : string -> string -> string -> World -> ListReply * World
}.

(** ** Observable effects *)

(** The calls made on the registry client, in the order they happened. *)
Inductive Call :=
| CallDeleteAcrTag (repo name : string) (reply : DeleteReply)
| CallDeleteManifest (repo digest : string) (reply : DeleteReply)
| CallGetAcrManifests (repo filter last : string) (reply : ListReply).

(** Arguments of a print or of a log field. *)
Inductive Arg := AStr (s : string) | AInt (z : Z) | AErr (e : error).

Inductive Level := Info | Warn | Error.

(** The field names of [internal/logger]; their string values are not
    needed. *)
Inductive Field :=
| FieldRepository | FieldTagCount | FieldManifestCount | FieldTag
| FieldManifest | FieldStatusCode | FieldLoginURL | FieldDeletedCount
| FieldAttemptedCount | FieldError.

(** One line of output: a [fmt.Printf] with its format and arguments, or
    a structured log event. *)
Inductive Output :=
| Printf (format : string) (args : list Arg)
| LogEvent (level : Level) (fields : list (Field * Arg)) (msg : string).

(** A logger with its context fields ([logger.Get().With()...Logger()]). *)
Definition Logger := list (Field * Arg).

(** ** Tasks *)

(** The closures handed to [group.SubmitErr], as data: each constructor
    carries what its closure captures.  The loop variable of a [range] is
    a new variable in each round, so each closure keeps its own element. *)
Inductive Task :=
| TagTask (tag : TagAttributesBase)
| ManifestTask (manifestDigest : string).

(** ** 64-bit counters *)

Definition wrap64 (z : Z) : Z := (z + 2 ^ 63) mod 2 ^ 64 - 2 ^ 63.

(** [atomic.Int64.Add]: two's complement addition. *)
Definition Int64_Add (c delta : Z) : Z := wrap64 (c + delta).

(** ** State of a run *)

(** [Purger] with its embedded [Executer]; the pool is in [State]. *)
Record Purger := { loginURL : string; repoName : string }.

(** Everything a run of a purge operation touches:
    - [world]: the registry behind the client;
    - [deleted]: the [atomic.Int64] counter of the operation;
    - [queue]: tasks submitted to the group and not yet run;
    - [group_err]: the first error a task of the group returned;
    - [sched]: the choices of the pool's scheduler still to come;
    - [calls], [submitted], [output]: what has been observed so far. *)
Record State (World : Type) := {
  world : World;
  deleted : Z;
  queue : list Task;
  group_err : option error;
  sched : list (list nat);
  calls : list Call;
  submitted : list Task;
  output : list Output
}.
Arguments world {World} s.
Arguments deleted {World} s.
Arguments queue {World} s.
Arguments group_err {World} s.
Arguments sched {World} s.
Arguments calls {World} s.
Arguments submitted {World} s.
Arguments output {World} s.

(** How a computation ends: it returns, it panics (a nil dereference or
    an index out of range), or the model runs out of fuel. *)
Inductive Result (World A : Type) :=
| Done (a : A) (s : State World)
| Panic (s : State World)
| OutOfFuel (s : State World).
Arguments Done {World A} a s.
Arguments Panic {World A} s.
Arguments OutOfFuel {World A} s.

Definition M (World A : Type) : Type := State World -> Result World A.

Section Monad.

Context {World : Type}.

(** The state a purge operation starts from. *)
Definition initial (w : World) (sc : list (list nat)) : State World :=
  {| world := w; deleted := 0; queue := []; group_err := None; sched := sc;
     calls := []; submitted := []; output := [] |}.

Definition ret {A} (a : A) : M World A := fun s => Done a s.

Definition bind {A B} (m : M World A) (k : A -> M World B) : M World B :=
  fun s =>
    match m s with
    | Done a s' => k a s'
    | Panic s' => Panic s'
    | OutOfFuel s' => OutOfFuel s'
    end.

Definition panic {A} : M World A := fun s => Panic s.

Definition out_of_fuel {A} : M World A := fun s => OutOfFuel s.

(** The state in which a computation ends, however it ends. *)
Definition final {A} (r : Result World A) : State World :=
  match r with Done _ s => s | Panic s => s | OutOfFuel s => s end.

End Monad.

Notation "'let*' x ':=' m 'in' k" := (bind m (fun x => k))
  (at level 10, x pattern, m at level 100, k at level 200).

(** ** Primitive operations *)

Section Primitives.

Context {World : Type} `{Client : AcrCLIClientInterface World}.

Definition set_world (w : World) (s : State World) : State World :=
  {| world := w; deleted := deleted s; queue := queue s;
     group_err := group_err s; sched := sched s; calls := calls s;
     submitted := submitted s; output := output s |}.

Definition set_deleted (n : Z) (s : State World) : State World :=
  {| world := world s; deleted := n; queue := queue s;
     group_err := group_err s; sched := sched s; calls := calls s;
     submitted := submitted s; output := output s |}.

Definition set_queue (q : list Task) (s : State World) : State World :=
  {| world := world s; deleted := deleted s; queue := q;
     group_err := group_err s; sched := sched s; calls := calls s;
     submitted := submitted s; output := output s |}.

Definition set_group_err (e : option error) (s : State World) : State World :=
  {| world := world s; deleted := deleted s; queue := queue s;
     group_err := e; sched := sched s; calls := calls s;
     submitted := submitted s; output := output s |}.

Definition set_sched (sc : list (list nat)) (s : State World) : State World :=
  {| world := world s; deleted := deleted s; queue := queue s;
     group_err := group_err s; sched := sc; calls := calls s;
     submitted := submitted s; output := output s |}.

Definition add_call (c : Call) (s : State World) : State World :=
  {| world := world s; deleted := deleted s; queue := queue s;
     group_err := group_err s; sched := sched s; calls := calls s ++ [c];
     submitted := submitted s; output := output s |}.

Definition add_submitted (t : Task) (s : State World) : State World :=
  {| world := world s; deleted := deleted s; queue := queue s;
     group_err := group_err s; sched := sched s; calls := calls s;
     submitted := submitted s ++ [t]; output := output s |}.

Definition add_output (o : Output) (s : State World) : State World :=
  {| world := world s; deleted := deleted s; queue := queue s;
     group_err := group_err s; sched := sched s; calls := calls s;
     submitted := submitted s; output := output s ++ [o] |}.

(** [*p] on a pointer: a nil pointer panics. *)
Definition deref {A} (p : option A) : M World A :=
  match p with Some a => ret a | None => panic end.

(** [fmt.Printf] and the logger's [Msg]. *)
Definition emit (o : Output) : M World unit := fun s => Done tt (add_output o s).

(** The three calls on [p.acrClient]; each is one step on the registry. *)
Definition call_DeleteAcrTag (repo name : string) : M World DeleteReply :=
  fun s =>
    let (r, w) := DeleteAcrTag repo name (world s) in
    Done r (add_call (CallDeleteAcrTag repo name r) (set_world w s)).

Definition call_DeleteManifest (repo digest : string) : M World DeleteReply :=
  fun s =>
    let (r, w) := DeleteManifest repo digest (world s) in
    Done r (add_call (CallDeleteManifest repo digest r) (set_world w s)).

Definition call_GetAcrManifests (repo filter last : string) : M World ListReply :=
  fun s =>
    let (r, w) := GetAcrManifests repo filter last (world s) in
    Done r (add_call (CallGetAcrManifests repo filter last r) (set_world w s)).

(** [resp != nil && resp.Response != nil &&
    resp.StatusCode == http.StatusNotFound], left to right. *)
Definition is_not_found (resp : option autorest_Response) : bool :=
  match resp with
  | None => false
  | Some r =>
      match Response r with
      | None => false
      | Some h => (StatusCode h =? StatusNotFound)%Z
      end
  end.

(** [var deleted atomic.Int64], [Add] and [Load]. *)
Definition Int64_new : M World unit := fun s => Done tt (set_deleted 0 s).

Definition Add (delta : Z) : M World unit :=
  fun s => Done tt (set_deleted (Int64_Add (deleted s) delta) s).

(** [int(counter.Load())]; [int] is 64 bits wide. *)
Definition Load : M World Z := fun s => Done (deleted s) s.

(** [for _, x := range l { body }]. *)
Fixpoint for_each {A} (l : list A) (body : A -> M World unit) : M World unit :=
  match l with
  | [] => ret tt
  | x :: l' => let* _ := body x in for_each l' body
  end.

End Primitives.

(** ** The task group

    The pool and its groups come from a library outside the repository.
    The scheduler's freedom is made explicit as the schedule [sched]: at
    each point where the submitting thread is about to touch the registry,
    and at [Wait], the next element of the schedule says which queued
    tasks run, and in which order.  A task makes one registry call and one
    atomic update, so running tasks whole loses no interleaving. *)

Section Group.

Context {World : Type}.

(** The closure behind each task. *)
Variable run_task : Task -> M World (option error).

(** Modelled from the spec: [newGroup()] "returns a fresh grouping
    handle"; the pool's library is not part of the repository. *)
Definition NewGroup : M World unit :=
  fun s => Done tt (set_group_err None (set_queue [] s)).

(** Modelled from the spec: [group.submit(task)] "adds a task to the
    group and to the pool's run queue". *)
Definition SubmitErr (t : Task) : M World unit :=
  fun s => Done tt (add_submitted t (set_queue (queue s ++ [t]) s)).

(** Modelled from the spec: a worker runs one task to its end, and the
    group keeps "the first error among them".  A panic in a task is not
    recovered. *)
Definition run_one (t : Task) : M World unit :=
  let* err := run_task t in
  fun s =>
    match group_err s, err with
    | None, Some e => Done tt (set_group_err (Some e) s)
    | _, _ => Done tt s
    end.

(** The tasks a list of choices selects from the queue, in the order they
    are to run, and the tasks left in the queue.  A choice [k] takes the
    task at position [k mod length q] of what is still queued. *)
Fixpoint pick_tasks (picks : list nat) (q : list Task) : list Task * list Task :=
  match picks with
  | [] => ([], q)
  | k :: picks' =>
      match q !! (k mod length q)%nat with
      | None => ([], q)
      | Some t =>
          let (now, later) := pick_tasks picks' (delete (k mod length q)%nat q) in
          (t :: now, later)
      end
  end.

Definition next_choice : M World (list nat) :=
  fun s =>
    match sched s with
    | [] => Done [] s
    | picks :: sc => Done picks (set_sched sc s)
    end.

(** Modelled from the spec: "concurrent tasks are not guaranteed to start
    or finish in submission order"; workers make progress on the queue
    while the submitting thread goes on. *)
Definition yield : M World unit :=
  let* picks := next_choice in
  fun s =>
    let (now, later) := pick_tasks picks (queue s) in
    for_each now run_one (set_queue later s).

(** Modelled from the spec: [group.wait()] "blocks until all of the
    group's tasks have finished; returns the first error among them (nil
    if all succeeded)". *)
Definition Wait : M World (option error) :=
  let* picks := next_choice in
  fun s =>
    let (now, later) := pick_tasks picks (queue s) in
    (let* _ := for_each (now ++ later) run_one in
     fun s' => Done (group_err s') s') (set_queue [] s).

End Group.

(** ** The purger that prints ([PurgeTags], [deleteManifest],
    [PurgeManifests], [PurgeUntaggedManifests]) *)

Module Part001.
Section Purger.

Context {World : Type} `{Client : AcrCLIClientInterface World}.

(** [common.IsManifestDeletable], which lives outside this package. *)
Variable IsManifestDeletable : ManifestAttributesBase -> bool.

(** [resp.StatusCode] through the two pointers. *)
Definition resp_StatusCode (resp : option autorest_Response) : M World Z :=
  let* r := deref resp in
  let* h := deref (Response r) in
  ret (StatusCode h).

(** The closure [PurgeTags] submits for [tag]. *)
Definition PurgeTags_func (p : Purger) (tag : TagAttributesBase) : M World (option error) :=
  let* name := deref (Name tag) in
  let* (resp, err) := call_DeleteAcrTag (repoName p) name in
  match err with
  | None =>
      let* name := deref (Name tag) in
      let* _ := emit (Printf "Deleted %s/%s:%s\n"
                        [AStr (loginURL p); AStr (repoName p); AStr name]) in
      let* _ := Add 1 in
      ret None
  | Some e =>
      if is_not_found resp then
        let* _ := Add 1 in
        let* name := deref (Name tag) in
        let* code := resp_StatusCode resp in
        let* _ := emit (Printf "Skipped %s/%s:%s, HTTP status: %d\n"
                          [AStr (loginURL p); AStr (repoName p); AStr name; AInt code]) in
        ret None
      else
        let* name := deref (Name tag) in
        let* _ := emit (Printf "Failed to delete %s/%s:%s, error: %v\n"
                          [AStr (loginURL p); AStr (repoName p); AStr name; AErr e]) in
        ret (Some e)
  end.

Definition deleteManifest (p : Purger) (manifestDigest : string) : M World (option error) :=
  let* (resp, err) := call_DeleteManifest (repoName p) manifestDigest in
  match err with
  | None =>
      let* _ := emit (Printf "Deleted %s/%s@%s\n"
                        [AStr (loginURL p); AStr (repoName p); AStr manifestDigest]) in
      let* _ := Add 1 in
      ret None
  | Some e =>
      if is_not_found resp then
        let* _ := Add 1 in
        let* code := resp_StatusCode resp in
        let* _ := emit (Printf "Skipped %s/%s@%s, HTTP status: %d\n"
                          [AStr (loginURL p); AStr (repoName p); AStr manifestDigest;
                           AInt code]) in
        ret None
      else
        let* _ := emit (Printf "Failed to delete %s/%s@%s, error: %v\n"
                          [AStr (loginURL p); AStr (repoName p); AStr manifestDigest;
                           AErr e]) in
        ret (Some e)
  end.

(** What the pool runs for each task of this purger. *)
Definition run_task (p : Purger) (t : Task) : M World (option error) :=
  match t with
  | TagTask tag => PurgeTags_func p tag
  | ManifestTask manifestDigest => deleteManifest p manifestDigest
  end.

Definition PurgeTags (p : Purger) (tags : list TagAttributesBase) : M World (Z * option error) :=
  let* _ := Int64_new in
  let* _ := NewGroup in
  let* _ := for_each tags (fun tag => SubmitErr (TagTask tag)) in
  let* err := Wait (run_task p) in
  let* n := Load in
  ret (n, err).

Definition PurgeManifests (p : Purger) (manifests : list string) : M World (Z * option error) :=
  let* _ := Int64_new in
  let* _ := NewGroup in
  let* _ := for_each manifests (fun manifest => SubmitErr (ManifestTask manifest)) in
  let* err := Wait (run_task p) in
  let* n := Load in
  ret (n, err).

(** [resultManifests != nil && resultManifests.Response.Response != nil &&
    resultManifests.StatusCode == http.StatusNotFound], left to right. *)
Definition list_not_found (resultManifests : option Manifests) : bool :=
  match resultManifests with
  | None => false
  | Some rm =>
      match Response (Manifests_Response rm) with
      | None => false
      | Some h => (StatusCode h =? StatusNotFound)%Z
      end
  end.

(** [manifests[i]]: an index out of range panics. *)
Definition index {A} (l : list A) (i : nat) : M World A :=
  match l !! i with Some a => ret a | None => panic end.

Definition is_nil {A} (p : option A) : bool :=
  match p with None => true | Some _ => false end.

(** The body of [for _, manifest := range manifests]. *)
Definition PurgeUntaggedManifests_range (toSkipManifests : gset string)
    (manifest : ManifestAttributesBase) : M World unit :=
  if is_nil (Digest manifest) || negb (IsManifestDeletable manifest) then
    ret tt
  else
    let* digest := deref (Digest manifest) in
    if decide (digest ∈ toSkipManifests) then
      ret tt
    else
      let* manifestDigest := deref (Digest manifest) in
      SubmitErr (ManifestTask manifestDigest).

(** How the [for { ... }] of [PurgeUntaggedManifests] is left: by
    [break], or by a [return] of the whole function. *)
Inductive LoopExit := Break | Return (n : Z) (err : option error).

(** The [for { ... }] loop, one listing call per round; [fuel] bounds the
    number of rounds. *)
Fixpoint PurgeUntaggedManifests_loop (fuel : nat) (p : Purger)
    (toSkipManifests : gset string) (lastManifestDigest : string) : M World LoopExit :=
  match fuel with
  | O => out_of_fuel
  | S fuel' =>
      let* _ := yield (run_task p) in
      let* (resultManifests, err) :=
        call_GetAcrManifests (repoName p) "" lastManifestDigest in
      match err with
      | Some e =>
          if list_not_found resultManifests then ret (Return 0 None)
          else ret (Return 0 (Some e))
      | None =>
          match resultManifests with
          | None => ret Break
          | Some rm =>
              match ManifestsAttributes rm with
              | None => ret Break
              | Some manifests =>
                  if (length manifests =? 0)%nat then ret Break
                  else
                    let* _ := for_each manifests
                                (PurgeUntaggedManifests_range toSkipManifests) in
                    if (length manifests =? 0)%nat then ret Break
                    else
                      let* last := index manifests (length manifests - 1) in
                      let* lastManifestDigest := deref (Digest last) in
                      PurgeUntaggedManifests_loop fuel' p toSkipManifests
                        lastManifestDigest
              end
          end
      end
  end.

Definition PurgeUntaggedManifests (fuel : nat) (p : Purger)
    (toSkipManifests : gset string) : M World (Z * option error) :=
  let* _ := Int64_new in
  let* _ := NewGroup in
  let* exit := PurgeUntaggedManifests_loop fuel p toSkipManifests "" in
  match exit with
  | Return n err => ret (n, err)
  | Break =>
      let* err := Wait (run_task p) in
      let* n := Load in
      ret (n, err)
  end.

End Purger.
End Part001.

(** ** The purger that logs ([internal/worker/purger.go]) *)

Module Worker.
Section Purger.

Context {World : Type} `{Client : AcrCLIClientInterface World}.

Definition resp_StatusCode (resp : option autorest_Response) : M World Z :=
  let* r := deref resp in
  let* h := deref (Response r) in
  ret (StatusCode h).

(** The closure [PurgeTags] submits for [tag]; it captures [log]. *)
Definition PurgeTags_func (p : Purger) (log : Logger) (tag : TagAttributesBase) :
    M World (option error) :=
  let* name := deref (Name tag) in
  let* (resp, err) := call_DeleteAcrTag (repoName p) name in
  match err with
  | None =>
      let* name := deref (Name tag) in
      let* _ := emit (LogEvent Info (log ++ [(FieldTag, AStr name)]) "Deleted tag") in
      let* _ := Add 1 in
      ret None
  | Some e =>
      if is_not_found resp then
        let* _ := Add 1 in
        let* name := deref (Name tag) in
        let* code := resp_StatusCode resp in
        let* _ := emit (LogEvent Warn
                          (log ++ [(FieldTag, AStr name); (FieldStatusCode, AInt code)])
                          "Skipped tag, HTTP status") in
        ret None
      else
        let* name := deref (Name tag) in
        let* _ := emit (LogEvent Error
                          (log ++ [(FieldTag, AStr name); (FieldError, AErr e)])
                          "Failed to delete tag") in
        ret (Some e)
  end.

(** The closure [PurgeManifests] submits for [manifest]. *)
Definition PurgeManifests_func (p : Purger) (log : Logger) (manifest : string) :
    M World (option error) :=
  let* (resp, err) := call_DeleteManifest (repoName p) manifest in
  match err with
  | None =>
      let* _ := emit (LogEvent Info
                        (log ++ [(FieldLoginURL, AStr (loginURL p));
                                 (FieldManifest, AStr manifest)])
                        "Deleted manifest") in
      let* _ := Add 1 in
      ret None
  | Some e =>
      if is_not_found resp then
        let* _ := Add 1 in
        let* code := resp_StatusCode resp in
        let* _ := emit (LogEvent Warn
                          (log ++ [(FieldManifest, AStr manifest);
                                   (FieldStatusCode, AInt code)])
                          "Skipped manifest, HTTP status") in
        ret None
      else
        let* _ := emit (LogEvent Error
                          (log ++ [(FieldManifest, AStr manifest); (FieldError, AErr e)])
                          "Failed to delete manifest") in
        ret (Some e)
  end.

Definition run_task (p : Purger) (log : Logger) (t : Task) : M World (option error) :=
  match t with
  | TagTask tag => PurgeTags_func p log tag
  | ManifestTask manifest => PurgeManifests_func p log manifest
  end.

Definition PurgeTags (p : Purger) (tags : list TagAttributesBase) : M World (Z * option error) :=
  let log := [(FieldRepository, AStr (repoName p));
              (FieldTagCount, AInt (Z.of_nat (length tags)))] in
  let* _ := emit (LogEvent Info log "Starting concurrent tag deletion") in
  let* _ := Int64_new in
  let* _ := NewGroup in
  let* _ := for_each tags (fun tag => SubmitErr (TagTask tag)) in
  let* err := Wait (run_task p log) in
  let* n := Load in
  ret (n, err).

Definition PurgeManifests (p : Purger) (manifests : list string) : M World (Z * option error) :=
  let log := [(FieldRepository, AStr (repoName p));
              (FieldManifestCount, AInt (Z.of_nat (length manifests)))] in
  let* _ := emit (LogEvent Info log "Starting concurrent manifest deletion") in
  let* _ := Int64_new in
  let* _ := NewGroup in
  let* _ := for_each manifests (fun manifest => SubmitErr (ManifestTask manifest)) in
  let* err := Wait (run_task p log) in
  let* finalCount := Load in
  let* _ := emit (LogEvent Info
                    (log ++ [(FieldDeletedCount, AInt finalCount);
                             (FieldAttemptedCount, AInt (Z.of_nat (length manifests)))])
                    "Completed manifest deletion batch") in
  ret (finalCount, err).

End Purger.
End Worker.

(** ** A scripted registry, for concrete runs

    The registry remembers what has been deleted.  Deleting a target the
    script marks as failing gives a server error; deleting a target that
    is already gone gives not-found; any other delete is accepted.  A
    listing call answers from the script, by cursor. *)

Module Mock.

Record Script := {
  listing : list (string * ListReply);
  failing : list string
}.

Definition accepted : DeleteReply :=
  (Some {| Response := Some {| StatusCode := 202 |} |}, None).

Definition not_found : DeleteReply :=
  (Some {| Response := Some {| StatusCode := 404 |} |}, Some "not found").

Definition server_error : DeleteReply :=
  (Some {| Response := Some {| StatusCode := 500 |} |}, Some "internal server error").

Definition page (l : list ManifestAttributesBase) : ListReply :=
  (Some {| Manifests_Response := {| Response := Some {| StatusCode := 200 |} |};
           ManifestsAttributes := Some l |}, None).

Definition repository_not_found : ListReply :=
  (Some {| Manifests_Response := {| Response := Some {| StatusCode := 404 |} |};
           ManifestsAttributes := None |}, Some "repository not found").

Definition listing_failed : ListReply :=
  (Some {| Manifests_Response := {| Response := Some {| StatusCode := 500 |} |};
           ManifestsAttributes := None |}, Some "listing failed").

Definition delete (sc : Script) (target : string) (gone : list string) :
    DeleteReply * list string :=
  if bool_decide (target ∈ failing sc) then (server_error, gone)
  else if bool_decide (target ∈ gone) then (not_found, gone)
  else (accepted, target :: gone).

Fixpoint lookup_page (l : list (string * ListReply)) (cursor : string) : ListReply :=
  match l with
  | [] => page []
  | (c, r) :: l' => if String.eqb c cursor then r else lookup_page l' cursor
  end.

Definition client (sc : Script) : AcrCLIClientInterface (list string) := {|
  DeleteAcrTag := fun _ name gone => delete sc name gone;
  DeleteManifest := fun _ digest gone => delete sc digest gone;
  GetAcrManifests := fun _ _ last gone => (lookup_page (listing sc) last, gone)
|}.

Definition manifest (digest : string) : ManifestAttributesBase :=
  {| Digest := Some digest; Attributes := None |}.

Definition malformed : ManifestAttributesBase :=
  {| Digest := None; Attributes := None |}.

Definition tag (name : string) : TagAttributesBase := {| Name := Some name |}.

Definition purger : Purger := {| loginURL := "registry.azurecr.io"; repoName := "repo" |}.

Definition always_deletable (m : ManifestAttributesBase) : bool := true.

End Mock.

(** * Vocabulary of the properties *)

(** ** Calls, counts and replies *)

(** A delete call succeeded, or failed with HTTP status not-found: the
    target counts as deleted. *)
Definition counts_as_deleted (r : DeleteReply) : bool :=
  match r.2 with
  | None => true
  | Some _ => is_not_found r.1
  end.

(** The non-recoverable error of a delete call, if it has one. *)
Definition delete_error (r : DeleteReply) : option error :=
  match r.2 with
  | None => None
  | Some e => if is_not_found r.1 then None else Some e
  end.

Definition delete_reply (c : Call) : option DeleteReply :=
  match c with
  | CallDeleteAcrTag _ _ r | CallDeleteManifest _ _ r => Some r
  | CallGetAcrManifests _ _ _ _ => None
  end.

(** The delete calls of a trace that count as deleted, and those that
    returned a non-recoverable error. *)
Definition deleted_call (c : Call) : bool :=
  match delete_reply c with Some r => counts_as_deleted r | None => false end.

Definition failed_call (c : Call) : bool :=
  match delete_reply c with Some r => negb (counts_as_deleted r) | None => false end.

Fixpoint count_calls (f : Call -> bool) (cs : list Call) : nat :=
  match cs with
  | [] => 0
  | c :: cs' => (if f c then 1 else 0) + count_calls f cs'
  end.

Definition deletions (cs : list Call) : nat := count_calls deleted_call cs.

Definition failures (cs : list Call) : nat := count_calls failed_call cs.

(** The first non-recoverable error of a trace. *)
Fixpoint first_error (cs : list Call) : option error :=
  match cs with
  | [] => None
  | c :: cs' =>
      match delete_reply c with
      | Some r => match delete_error r with Some e => Some e | None => first_error cs' end
      | None => first_error cs'
      end
  end.

(** A task that has the name it dereferences: a tag task needs the name
    of its tag, a manifest task holds its digest. *)
Definition has_name (t : Task) : Prop :=
  match t with TagTask tag => is_Some (Name tag) | ManifestTask _ => True end.

Definition is_manifest_task (t : Task) : Prop :=
  match t with ManifestTask _ => True | TagTask _ => False end.

Definition digest_of (t : Task) : string :=
  match t with ManifestTask d => d | TagTask _ => "" end.

Definition named (tag : TagAttributesBase) : Prop := is_Some (Name tag).

(** The cursors of the listing calls of a trace, in order. *)
Definition list_cursors (cs : list Call) : list string :=
  omap (fun c => match c with
                 | CallGetAcrManifests _ _ last _ => Some last
                 | _ => None
                 end) cs.

(** The digests of the manifest delete calls of a trace, in order. *)
Definition deleted_digests (cs : list Call) : list string :=
  omap (fun c => match c with
                 | CallDeleteManifest _ digest _ => Some digest
                 | _ => None
                 end) cs.

(** The records of a listing reply that came without an error. *)
Definition page_of (reply : ListReply) : list ManifestAttributesBase :=
  match reply with
  | (Some rm, None) => default [] (ManifestsAttributes rm)
  | _ => []
  end.

(** The records of the pages the listing calls of a trace returned. *)
Definition listed_records (cs : list Call) : list ManifestAttributesBase :=
  flat_map (fun c => match c with
                     | CallGetAcrManifests _ _ _ reply => page_of reply
                     | _ => []
                     end) cs.

(** A listing call that returned an error. *)
Definition failed_listing (c : Call) : Prop :=
  match c with
  | CallGetAcrManifests _ _ _ reply => is_Some reply.2
  | _ => False
  end.

(** A listing reply that reports repository-not-found: an error, with a
    response of HTTP status not-found. *)
Definition reports_not_found (reply : ListReply) : Prop :=
  exists rm h e,
    reply = (Some rm, Some e) /\ Response (Manifests_Response rm) = Some h /\
    StatusCode h = StatusNotFound.

(** A delete call succeeds; a delete call fails with HTTP status
    not-found. *)
Definition succeeds (r : DeleteReply) : Prop := r.2 = None.

Definition fails_not_found (r : DeleteReply) : Prop :=
  exists resp h e,
    r = (Some resp, Some e) /\ Response resp = Some h /\ StatusCode h = StatusNotFound.

Definition in_int64 (z : Z) : Prop := - 2 ^ 63 <= z < 2 ^ 63.

(** ** Tasks, runs of tasks and purges *)

Section Vocabulary.

Context {World : Type} `{Client : AcrCLIClientInterface World}.

(** The state after a task made the delete call [c], was answered [r],
    left the registry in [w] and wrote the lines [o]. *)
Definition after_delete (c : Call) (r : DeleteReply) (w : World) (o : list Output)
    (s : State World) : State World :=
  {| world := w;
     deleted := if counts_as_deleted r then Int64_Add (deleted s) 1 else deleted s;
     queue := queue s; group_err := group_err s; sched := sched s;
     calls := calls s ++ [c]; submitted := submitted s;
     output := output s ++ o |}.

(** What running a task amounts to, for either purger: one delete call,
    classified; a tag without a name panics before any call. *)
Definition task_result (p : Purger) (t : Task) (o : list Output) (s : State World) :
    Result World (option error) :=
  match t with
  | TagTask tag =>
      match Name tag with
      | None => Panic s
      | Some name =>
          let r := (DeleteAcrTag (repoName p) name (world s)).1 in
          let w := (DeleteAcrTag (repoName p) name (world s)).2 in
          Done (delete_error r)
               (after_delete (CallDeleteAcrTag (repoName p) name r) r w o s)
      end
  | ManifestTask digest =>
      let r := (DeleteManifest (repoName p) digest (world s)).1 in
      let w := (DeleteManifest (repoName p) digest (world s)).2 in
      Done (delete_error r)
           (after_delete (CallDeleteManifest (repoName p) digest r) r w o s)
  end.

Definition runs_tasks (p : Purger) (run : Task -> M World (option error)) : Prop :=
  forall t s, exists o, run t s = task_result p t o s.

(** The delete call task [t] makes, on some state of the registry. *)
Definition called (p : Purger) (t : Task) (c : Call) : Prop :=
  match t with
  | TagTask tag =>
      exists name w, Name tag = Some name /\
        c = CallDeleteAcrTag (repoName p) name (DeleteAcrTag (repoName p) name w).1
  | ManifestTask digest =>
      exists w,
        c = CallDeleteManifest (repoName p) digest (DeleteManifest (repoName p) digest w).1
  end.

(** State [s'] is state [s] after the tasks [ts] ran, in this order, and
    made the calls [cs]. *)
Record ran (p : Purger) (ts : list Task) (cs : list Call) (s s' : State World) : Prop := {
  ran_called : Forall2 (called p) ts cs;
  ran_calls : calls s' = calls s ++ cs;
  ran_deleted : deleted s' = wrap64 (deleted s + Z.of_nat (deletions cs));
  ran_err : group_err s' = from_option Some (first_error cs) (group_err s);
  ran_submitted : submitted s' = submitted s
}.

(** Submitting a list of tasks only queues them. *)
Definition enqueue (ts : list Task) (s : State World) : State World :=
  {| world := world s; deleted := deleted s; queue := queue s ++ ts;
     group_err := group_err s; sched := sched s; calls := calls s;
     submitted := submitted s ++ ts; output := output s |}.

(** A task whose delete call, whatever the state of the registry,
    succeeds or fails with not-found. *)
Definition recoverable (p : Purger) (t : Task) : Prop :=
  match t with
  | TagTask tag =>
      forall name, Name tag = Some name ->
        forall w, counts_as_deleted (DeleteAcrTag (repoName p) name w).1 = true
  | ManifestTask digest =>
      forall w, counts_as_deleted (DeleteManifest (repoName p) digest w).1 = true
  end.

(** What a purge of the targets [total] from state [s0] comes to: every
    target is tried once, in some order; the count is the number of calls
    that count as deleted, the error is the first failure. *)
Definition purged (p : Purger) (total : list Task) (s0 : State World)
    (r : Result World (Z * option error)) : Prop :=
  exists s' cs order,
    r = Done (wrap64 (Z.of_nat (deletions cs)), first_error cs) s' /\
    order ≡ₚ total /\ Forall2 (called p) order cs /\
    calls s' = calls s0 ++ cs /\ queue s' = [] /\
    submitted s' = submitted s0 ++ total.

(** The count, the failures and the targets of a purge add up. *)
Definition accounted (total : nat) (r : Result World (Z * option error)) : Prop :=
  exists n err s',
    r = Done (n, err) s' /\
    length (calls s') = total /\
    n + Z.of_nat (failures (calls s')) = Z.of_nat total /\
    (failures (calls s') = 1%nat -> n = Z.of_nat total - 1 /\ err <> None).

(** Two states that differ at most in what was printed or logged. *)
Definition same_but_output (s1 s2 : State World) : Prop :=
  world s1 = world s2 /\ deleted s1 = deleted s2 /\ queue s1 = queue s2 /\
  group_err s1 = group_err s2 /\ sched s1 = sched s2 /\ calls s1 = calls s2 /\
  submitted s1 = submitted s2.

(** Two computations end the same way, with the same value, in states
    that differ at most in their output. *)
Definition same_result {A} (r1 r2 : Result World A) : Prop :=
  match r1, r2 with
  | Done a1 s1, Done a2 s2 => a1 = a2 /\ same_but_output s1 s2
  | Panic s1, Panic s2 => same_but_output s1 s2
  | OutOfFuel s1, OutOfFuel s2 => same_but_output s1 s2
  | _, _ => False
  end.

Definition respects {A} (m1 m2 : M World A) : Prop :=
  forall s1 s2, same_but_output s1 s2 -> same_result (m1 s1) (m2 s2).

End Vocabulary.

(** ** The untagged sweep, round by round *)

Section SweepVocabulary.

Context {World : Type} `{Client : AcrCLIClientInterface World}.

Variable IsManifestDeletable : ManifestAttributesBase -> bool.
Variable p : Purger.
Variable toSkip : gset string.

Local Abbreviation loop := (Part001.PurgeUntaggedManifests_loop IsManifestDeletable).

(** The task the loop submits for a page record, if any. *)
Definition wanted (m : ManifestAttributesBase) : option Task :=
  match Digest m with
  | Some d =>
      if IsManifestDeletable m && bool_decide (d ∉ toSkip)
      then Some (ManifestTask d) else None
  | None => None
  end.

(** The reply to the listing call made from [s] with the cursor
    [cursor], and the state after that call. *)
Definition list_reply (cursor : string) (s : State World) : ListReply :=
  (GetAcrManifests (repoName p) "" cursor (world s)).1.

Definition listed (cursor : string) (s : State World) : State World :=
  add_call (CallGetAcrManifests (repoName p) "" cursor (list_reply cursor s))
    (set_world (GetAcrManifests (repoName p) "" cursor (world s)).2 s).

(** One round of the loop, once the workers have made their progress. *)
Definition after_yield (fuel : nat) (cursor : string) (s : State World) :
    Result World Part001.LoopExit :=
  let reply := list_reply cursor s in
  match reply.2 with
  | Some e =>
      Done (Part001.Return 0 (if Part001.list_not_found reply.1 then None else Some e))
           (listed cursor s)
  | None =>
      match page_of reply with
      | [] => Done Part001.Break (listed cursor s)
      | _ :: _ =>
          match mbind Digest (last (page_of reply)) with
          | None => Panic (enqueue (omap wanted (page_of reply)) (listed cursor s))
          | Some d =>
              loop fuel p toSkip d (enqueue (omap wanted (page_of reply)) (listed cursor s))
          end
      end
  end.

(** A call of the sweep with the answer the registry gave to it. *)
Definition from_registry (c : Call) : Prop :=
  match c with
  | CallDeleteAcrTag _ _ _ => False
  | CallDeleteManifest repo digest r =>
      repo = repoName p /\ exists w, r = (DeleteManifest (repoName p) digest w).1
  | CallGetAcrManifests repo filter cursor r =>
      repo = repoName p /\ filter = "" /\
      exists w, r = (GetAcrManifests (repoName p) "" cursor w).1
  end.

(** What holds of the state at every round of the sweep: the queue holds
    manifest tasks; the counter and the group's error follow from the
    calls made; the tasks submitted are those that ran and those still
    queued; and they are the tasks wanted for the records listed. *)
Record sweep_inv (s : State World) : Prop := {
  inv_queue : Forall is_manifest_task (queue s);
  inv_deleted : deleted s = wrap64 (Z.of_nat (deletions (calls s)));
  inv_err : group_err s = first_error (calls s);
  inv_perm : map ManifestTask (deleted_digests (calls s)) ++ queue s ≡ₚ submitted s;
  inv_submitted : submitted s = omap wanted (listed_records (calls s));
  inv_calls : Forall from_registry (calls s)
}.

Definition no_failed_listing (cs : list Call) : Prop :=
  Forall (fun c => ~ failed_listing c) cs.

(** How the loop can end. *)
Definition loop_post (r : Result World Part001.LoopExit) : Prop :=
  sweep_inv (final r) /\
  match r with
  | Done (Part001.Return n err) s' =>
      n = 0 /\
      exists cs0 cursor reply e,
        calls s' = cs0 ++ [CallGetAcrManifests (repoName p) "" cursor reply] /\
        no_failed_listing cs0 /\ reply.2 = Some e /\
        err = (if Part001.list_not_found reply.1 then None else Some e)
  | Done Part001.Break s' => no_failed_listing (calls s')
  | OutOfFuel s' => no_failed_listing (calls s')
  | Panic s' =>
      no_failed_listing (calls s') /\
      exists m, last (listed_records (calls s')) = Some m /\ Digest m = None
  end.

(** How the sweep can end. *)
Definition sweep_post (r : Result World (Z * option error)) : Prop :=
  sweep_inv (final r) /\
  match r with
  | Done (n, err) s' =>
      (no_failed_listing (calls s') /\ queue s' = [] /\
       n = deleted s' /\ err = group_err s') \/
      (n = 0 /\
       exists cs0 cursor reply e,
         calls s' = cs0 ++ [CallGetAcrManifests (repoName p) "" cursor reply] /\
         no_failed_listing cs0 /\ reply.2 = Some e /\
         err = (if Part001.list_not_found reply.1 then None else Some e))
  | OutOfFuel s' => no_failed_listing (calls s')
  | Panic s' =>
      no_failed_listing (calls s') /\
      exists m, last (listed_records (calls s')) = Some m /\ Digest m = None
  end.

End SweepVocabulary.

(** ** Scripts for concrete runs *)

Module Scripts.
Import Mock.

(** Two tags, the second one already gone from the registry. *)
Definition tags : list TagAttributesBase := [tag "v1"; tag "v2"].
Definition manifests : list string := ["sha256:a"; "sha256:b"; "sha256:c"].
Definition healthy : Script := {| listing := []; failing := [] |}.
Definition one_failing : Script := {| listing := []; failing := ["v2"; "sha256:b"] |}.

(** Three pages of one manifest each. *)
Definition three_pages : Script :=
  {| listing := [("", page [manifest "A"]); ("A", page [manifest "B"]);
                 ("B", page [manifest "C"])];
     failing := [] |}.

(** One page of three manifests. *)
Definition one_page : Script :=
  {| listing := [("", page [manifest "A"; manifest "B"; manifest "C"])];
     failing := [] |}.

(** A page whose last record has no digest. *)
Definition malformed_last : Script :=
  {| listing := [("", page [manifest "A"; malformed])]; failing := [] |}.

(** A first page, then a listing that fails. *)
Definition listing_fails : Script :=
  {| listing := [("", page [manifest "A"]); ("A", listing_failed)]; failing := [] |}.

(** A repository that does not exist. *)
Definition no_repository : Script :=
  {| listing := [("", repository_not_found)]; failing := [] |}.

Definition sweep (script : Script) (fuel : nat) (toSkip : gset string)
    (sc : list (list nat)) : Result (list string) (Z * option error) :=
  @Part001.PurgeUntaggedManifests _ (client script) always_deletable fuel purger toSkip
    (initial [] sc).

End Scripts.

(** ** Vocabulary of the further properties *)

(** The names of the tag delete calls of a trace, in order. *)
Definition deleted_tags (cs : list Call) : list string :=
  omap (fun c => match c with
                 | CallDeleteAcrTag _ name _ => Some name
                 | _ => None
                 end) cs.

(** The repository a call names. *)
Definition call_repository (c : Call) : string :=
  match c with
  | CallDeleteAcrTag repo _ _ => repo
  | CallDeleteManifest repo _ _ => repo
  | CallGetAcrManifests repo _ _ _ => repo
  end.

(** A failed delete call of a trace that returned the error [e]. *)
Definition failed_with (e : error) (c : Call) : Prop :=
  exists r, delete_reply c = Some r /\ r.2 = Some e /\ is_not_found r.1 = false.

(** What a purge reports: the count is the number of delete calls that
    count as deleted; the error is that of the first failed delete call,
    as the registry client returned it, and nil when none failed. *)
Definition reported {World : Type} (r : Result World (Z * option error)) : Prop :=
  exists n err s',
    r = Done (n, err) s' /\
    n = Z.of_nat (deletions (calls s')) /\
    err = first_error (calls s') /\
    (err = None <-> failures (calls s') = 0%nat) /\
    (forall e, err = Some e -> exists c, c ∈ calls s' /\ failed_with e c).



(** A purge that returned [(0, nil)] without a call on the registry. *)
Definition did_nothing {World : Type} (w : World)
    (r : Result World (Z * option error)) : Prop :=
  exists s', r = Done (0, None) s' /\ calls s' = [] /\ world s' = w.

(** The number of elements of a list that pass a test. *)
Fixpoint count_if {A} (f : A -> bool) (l : list A) : nat :=
  match l with
  | [] => 0
  | x :: l' => (if f x then 1 else 0) + count_if f l'
  end.

(** The listing calls of a trace, each with its cursor and its reply. *)
Definition listings (cs : list Call) : list (string * ListReply) :=
  omap (fun c => match c with
                 | CallGetAcrManifests _ _ cursor reply => Some (cursor, reply)
                 | _ => None
                 end) cs.

(** A sequence of listing calls that starts with the cursor [cursor] and
    in which each call after the first has for cursor the digest of the
    last record of the page before. *)
Fixpoint cursor_chain (cursor : string) (l : list (string * ListReply)) : Prop :=
  match l with
  | [] => True
  | (c, reply) :: l' =>
      c = cursor /\
      match l' with
      | [] => True
      | _ :: _ =>
          reply.2 = None /\
          exists d, mbind Digest (last (page_of reply)) = Some d /\ cursor_chain d l'
      end
  end.

(** A call of the sweep on the repository [repo]: a manifest delete, or a
    listing with the empty filter. *)
Definition sweep_call (repo : string) (c : Call) : Prop :=
  match c with
  | CallDeleteAcrTag _ _ _ => False
  | CallDeleteManifest r _ _ => r = repo
  | CallGetAcrManifests r filter _ _ => r = repo /\ filter = ""
  end.

(** A registry whose answer to a delete depends on the target only. *)
Module Fixed.

Definition client (answer : string -> DeleteReply) : AcrCLIClientInterface unit := {|
  DeleteAcrTag := fun _ name w => (answer name, w);
  DeleteManifest := fun _ digest w => (answer digest, w);
  GetAcrManifests := fun _ _ _ w => (Mock.page [], w)
|}.


End Fixed.

(** A registry that answers every listing call, whatever the cursor, with
    the same page of one manifest. *)
Module Stuck.

Definition client : AcrCLIClientInterface unit := {|
  DeleteAcrTag := fun _ _ w => (Mock.accepted, w);
  DeleteManifest := fun _ _ w => (Mock.accepted, w);
  GetAcrManifests := fun _ _ _ w => (Mock.page [Mock.manifest "A"], w)
|}.

End Stuck.



(** * Properties *)

(** ** Arithmetic of the counter *)

Lemma wrap64_small z : - 2 ^ 63 <= z < 2 ^ 63 -> wrap64 z = z.
Proof. intros H. unfold wrap64. rewrite Z.mod_small; lia. Qed.

Lemma wrap64_add_l a b : wrap64 (wrap64 a + b) = wrap64 (a + b).
Proof.
  unfold wrap64.
  replace ((a + 2 ^ 63) mod 2 ^ 64 - 2 ^ 63 + b + 2 ^ 63)
    with ((a + 2 ^ 63) mod 2 ^ 64 + b) by lia.
  rewrite Z.add_mod_idemp_l by lia.
  f_equal. f_equal. lia.
Qed.

(** ** What one task does *)

Section TaskFacts.

Context {World : Type} `{Client : AcrCLIClientInterface World}.

Ltac run_closure :=
  unfold task_result, after_delete, counts_as_deleted, delete_error,
    bind, deref, emit, Add, ret, panic, is_not_found,
    call_DeleteAcrTag, call_DeleteManifest; simpl.

Lemma Part001_runs_tasks p : runs_tasks p (Part001.run_task p).
Proof.
  intros [tag | digest] s; simpl;
    unfold Part001.PurgeTags_func, Part001.deleteManifest, Part001.resp_StatusCode;
    run_closure.
  - destruct (Name tag) as [name |]; simpl; [| by exists []].
    destruct (DeleteAcrTag (repoName p) name (world s)) as [[resp [e |]] w]; simpl.
    + destruct resp as [[[h |]] |]; simpl; [destruct (StatusCode h =? StatusNotFound)%Z | ..];
        simpl; eexists; reflexivity.
    + eexists; reflexivity.
  - destruct (DeleteManifest (repoName p) digest (world s)) as [[resp [e |]] w]; simpl.
    + destruct resp as [[[h |]] |]; simpl; [destruct (StatusCode h =? StatusNotFound)%Z | ..];
        simpl; eexists; reflexivity.
    + eexists; reflexivity.
Qed.

Lemma Worker_runs_tasks p log : runs_tasks p (Worker.run_task p log).
Proof.
  intros [tag | digest] s; simpl;
    unfold Worker.PurgeTags_func, Worker.PurgeManifests_func, Worker.resp_StatusCode;
    run_closure.
  - destruct (Name tag) as [name |]; simpl; [| by exists []].
    destruct (DeleteAcrTag (repoName p) name (world s)) as [[resp [e |]] w]; simpl.
    + destruct resp as [[[h |]] |]; simpl; [destruct (StatusCode h =? StatusNotFound)%Z | ..];
        simpl; eexists; reflexivity.
    + eexists; reflexivity.
  - destruct (DeleteManifest (repoName p) digest (world s)) as [[resp [e |]] w]; simpl.
    + destruct resp as [[[h |]] |]; simpl; [destruct (StatusCode h =? StatusNotFound)%Z | ..];
        simpl; eexists; reflexivity.
    + eexists; reflexivity.
Qed.

End TaskFacts.

(** ** What a run of tasks does *)

Lemma wrap64_in_int64 z : in_int64 (wrap64 z).
Proof.
  unfold in_int64, wrap64.
  pose proof (Z.mod_pos_bound (z + 2 ^ 63) (2 ^ 64)). lia.
Qed.

Lemma count_calls_app f cs1 cs2 :
  count_calls f (cs1 ++ cs2) = (count_calls f cs1 + count_calls f cs2)%nat.
Proof. induction cs1 as [| c cs1 IH]; simpl; [done |]. rewrite IH. lia. Qed.

Lemma deletions_app cs1 cs2 : deletions (cs1 ++ cs2) = (deletions cs1 + deletions cs2)%nat.
Proof. apply count_calls_app. Qed.

Lemma failures_app cs1 cs2 : failures (cs1 ++ cs2) = (failures cs1 + failures cs2)%nat.
Proof. apply count_calls_app. Qed.

Lemma first_error_app cs1 cs2 :
  first_error (cs1 ++ cs2) = from_option Some (first_error cs2) (first_error cs1).
Proof.
  induction cs1 as [| c cs1 IH]; simpl; [done |].
  destruct (delete_reply c) as [r |]; [| done].
  by destruct (delete_error r).
Qed.

Lemma first_error_None cs : first_error cs = None <-> failures cs = 0%nat.
Proof.
  unfold failures. induction cs as [| c cs IH]; simpl; [done |].
  unfold failed_call at 1.
  destruct (delete_reply c) as [[resp err] |]; simpl; [| exact IH].
  unfold delete_error, counts_as_deleted; simpl.
  destruct err as [e |]; simpl; [| exact IH].
  destruct (is_not_found resp); simpl; [exact IH |]. split; [done | lia].
Qed.

Section GroupFacts.

Context {World : Type} `{Client : AcrCLIClientInterface World}.

Lemma ran_nil p s : in_int64 (deleted s) -> ran p [] [] s s.
Proof.
  intros H. split; simpl; try done.
  - by rewrite app_nil_r.
  - rewrite Z.add_0_r. symmetry. by apply wrap64_small.
  - by destruct (group_err s).
Qed.

Lemma ran_app p ts1 ts2 cs1 cs2 s s1 s2 :
  ran p ts1 cs1 s s1 -> ran p ts2 cs2 s1 s2 -> ran p (ts1 ++ ts2) (cs1 ++ cs2) s s2.
Proof.
  intros [] []. split.
  - by apply Forall2_app.
  - rewrite ran_calls1, ran_calls0. by rewrite app_assoc.
  - rewrite ran_deleted1, ran_deleted0, wrap64_add_l, deletions_app. f_equal. lia.
  - rewrite ran_err1, ran_err0, first_error_app.
    destruct (group_err s); simpl; [done |]. by destruct (first_error cs1).
  - congruence.
Qed.

Lemma ran_start p ts cs s0 s s' :
  calls s0 = calls s -> deleted s0 = deleted s -> group_err s0 = group_err s ->
  submitted s0 = submitted s -> ran p ts cs s0 s' -> ran p ts cs s s'.
Proof. intros H1 H2 H3 H4 []. split; congruence. Qed.

Lemma ran_in_int64 p ts cs s s' : ran p ts cs s s' -> in_int64 (deleted s').
Proof. intros []. rewrite ran_deleted0. apply wrap64_in_int64. Qed.

Variable p : Purger.
Variable run : Task -> M World (option error).
Hypothesis Hrun : runs_tasks p run.

Lemma run_one_spec t s :
  has_name t -> in_int64 (deleted s) ->
  exists s' c, run_one run t s = Done tt s' /\ ran p [t] [c] s s' /\
    queue s' = queue s /\ sched s' = sched s.
Proof.
  intros Hname Hint. destruct (Hrun t s) as [o Ho].
  unfold run_one, bind. rewrite Ho. clear Ho.
  assert (Hstep : forall c r w,
    called p t c -> delete_reply c = Some r ->
    exists s',
      match group_err (after_delete c r w o s), delete_error r with
      | None, Some e => Done tt (set_group_err (Some e) (after_delete c r w o s))
      | _, _ => Done tt (after_delete c r w o s)
      end = Done tt s' /\ ran p [t] [c] s s' /\
        queue s' = queue s /\ sched s' = sched s).
  { intros c r w Hc Hr.
    assert (Hdel : deleted (after_delete c r w o s)
                   = wrap64 (deleted s + Z.of_nat (deletions [c]))).
    { unfold deletions. simpl. unfold deleted_call. rewrite Hr.
      destruct (counts_as_deleted r); simpl; [done |].
      rewrite Z.add_0_r. symmetry. by apply wrap64_small. }
    assert (Herr : first_error [c] = delete_error r).
    { simpl. rewrite Hr. by destruct (delete_error r). }
    simpl group_err at 1.
    destruct (group_err s) as [g |] eqn:Hg; [| destruct (delete_error r) as [e |] eqn:He];
      eexists; (split; [reflexivity |]); (split; [| done]); split; simpl; try done;
      try (by constructor); try (by rewrite Hg, Hr, ?He). }
  destruct t as [tag | digest]; simpl in *.
  - destruct Hname as [name Hn]. rewrite Hn.
    edestruct Hstep as [s' [Hs' Hran]]; [| | exists s'; eexists; split; [exact Hs' | exact Hran]];
      [| reflexivity].
    exists name, (world s). done.
  - edestruct Hstep as [s' [Hs' Hran]]; [| | exists s'; eexists; split; [exact Hs' | exact Hran]];
      [| reflexivity].
    exists (world s). done.
Qed.




Lemma run_tasks_spec ts s :
  Forall has_name ts -> in_int64 (deleted s) ->
  exists s' cs, for_each ts (run_one run) s = Done tt s' /\ ran p ts cs s s' /\
    queue s' = queue s /\ sched s' = sched s.
Proof.
  revert s. induction ts as [| t ts IH]; intros s Hnames Hint; simpl.
  - exists s, []. split; [done |]. split; [| done]. by apply ran_nil.
  - inversion_clear Hnames as [| ? ? Ht Hts].
    destruct (run_one_spec t s Ht Hint) as (s1 & c & Hs1 & Hran1 & Hq1 & Hsc1).
    unfold bind. rewrite Hs1.
    destruct (IH s1 Hts (ran_in_int64 _ _ _ _ _ Hran1)) as (s2 & cs & Hs2 & Hran2 & Hq2 & Hsc2).
    exists s2, ([c] ++ cs). split; [done |]. split; [| split; congruence].
    by apply (ran_app p [t] ts [c] cs s s1 s2).
Qed.

(** The scheduler only reorders the queue. *)
Lemma pick_tasks_perm picks q now later :
  pick_tasks picks q = (now, later) -> now ++ later ≡ₚ q.
Proof.
  revert q now later. induction picks as [| k picks IH]; intros q now later; simpl.
  - intros [= <- <-]. done.
  - destruct (q !! (k mod length q)%nat) as [t |] eqn:Hk; [| by intros [= <- <-]].
    destruct (pick_tasks picks (delete (k mod length q)%nat q)) as [now' later'] eqn:Hp.
    intros [= <- <-]. simpl. rewrite (IH _ _ _ Hp). symmetry. by apply delete_Permutation.
Qed.

Lemma next_choice_spec (s : State World) :
  exists picks (s' : State World), next_choice s = Done picks s' /\
    world s' = world s /\ deleted s' = deleted s /\ queue s' = queue s /\
    group_err s' = group_err s /\ sched s' = tail (sched s) /\ calls s' = calls s /\
    submitted s' = submitted s /\ output s' = output s.
Proof.
  unfold next_choice. destruct (sched s) as [| picks sc] eqn:Hsc; eexists _, _;
    (split; [reflexivity |]); simpl; rewrite ?Hsc; done.
Qed.

(** [Wait] runs every queued task, in some order, and returns the first
    error. *)
Lemma Wait_spec s :
  Forall has_name (queue s) -> in_int64 (deleted s) ->
  exists s' cs order,
    Wait run s = Done (group_err s') s' /\ order ≡ₚ queue s /\ ran p order cs s s' /\
    queue s' = [] /\ sched s' = tail (sched s).
Proof.
  intros Hnames Hint. unfold Wait, bind.
  destruct (next_choice_spec s) as (picks & s0 & -> & Hw & Hd & Hq & Hg & Hsc & Hc & Hsub & Ho).
  destruct (pick_tasks picks (queue s0)) as [now later] eqn:Hp.
  apply pick_tasks_perm in Hp. rewrite Hq in Hp.
  destruct (run_tasks_spec (now ++ later) (set_queue [] s0)) as (s' & cs & Hs' & Hran & Hq' & Hsc').
  { by rewrite Hp. }
  { simpl. by rewrite Hd. }
  rewrite Hs'. exists s', cs, (now ++ later). split_and!; try done.
  - by apply (ran_start _ _ _ (set_queue [] s0)).
  - by rewrite Hsc'.
Qed.


(** [yield] runs some of the queued tasks and leaves the others queued. *)
Lemma yield_spec s :
  Forall has_name (queue s) -> in_int64 (deleted s) ->
  exists s' cs now,
    yield run s = Done tt s' /\ now ++ queue s' ≡ₚ queue s /\ ran p now cs s s' /\
    sched s' = tail (sched s).
Proof.
  intros Hnames Hint. unfold yield, bind.
  destruct (next_choice_spec s) as (picks & s0 & -> & Hw & Hd & Hq & Hg & Hsc & Hc & Hsub & Ho).
  destruct (pick_tasks picks (queue s0)) as [now later] eqn:Hp.
  apply pick_tasks_perm in Hp. rewrite Hq in Hp.
  destruct (run_tasks_spec now (set_queue later s0)) as (s' & cs & Hs' & Hran & Hq' & Hsc').
  { rewrite <- Hp in Hnames. by apply Forall_app in Hnames as [? _]. }
  { simpl. by rewrite Hd. }
  rewrite Hs'. exists s', cs, now. split_and!; try done.
  - by rewrite Hq'.
  - by apply (ran_start _ _ _ (set_queue later s0)).
  - by rewrite Hsc'.
Qed.

Lemma enqueue_nil (s : State World) : enqueue [] s = s.
Proof. destruct s. unfold enqueue; simpl. by rewrite !app_nil_r. Qed.

Lemma enqueue_app ts1 ts2 (s : State World) :
  enqueue ts2 (enqueue ts1 s) = enqueue (ts1 ++ ts2) s.
Proof. unfold enqueue; simpl. by rewrite !app_assoc. Qed.

Lemma submit_all {A} (f : A -> Task) (l : list A) (s : State World) :
  for_each l (fun x => SubmitErr (f x)) s = Done tt (enqueue (map f l) s).
Proof.
  revert s. induction l as [| x l IH]; intros s; simpl.
  - by rewrite enqueue_nil.
  - unfold bind, SubmitErr at 1. rewrite IH.
    change (f x :: map f l) with ([f x] ++ map f l).
    by rewrite <- (enqueue_app [f x] (map f l) s).
Qed.

(** A fresh counter, a fresh group, the tasks [ts] submitted, then
    [Wait]: the skeleton of [PurgeTags] and [PurgeManifests]. *)
Lemma group_run_spec ts s0 :
  Forall has_name ts ->
  exists s' cs order,
    Wait run (enqueue ts (set_group_err None (set_queue [] (set_deleted 0 s0))))
      = Done (first_error cs) s' /\
    order ≡ₚ ts /\ Forall2 (called p) order cs /\
    calls s' = calls s0 ++ cs /\
    deleted s' = wrap64 (Z.of_nat (deletions cs)) /\
    group_err s' = first_error cs /\
    queue s' = [] /\ submitted s' = submitted s0 ++ ts /\ sched s' = tail (sched s0).
Proof.
  intros Hnames.
  destruct (Wait_spec (enqueue ts (set_group_err None (set_queue [] (set_deleted 0 s0)))))
    as (s' & cs & order & Hs' & Hperm & [Hcalled Hcalls Hdel Herr Hsub] & Hq & Hsc).
  { done. }
  { simpl. unfold in_int64. lia. }
  simpl in *. exists s', cs, order. rewrite Hs', Herr. split_and!; done.
Qed.


End GroupFacts.

(** ** Counting the calls of a run *)

Section Counting.

Context {World : Type} `{Client : AcrCLIClientInterface World}.

Lemma called_delete_reply p t c : called p t c -> is_Some (delete_reply c).
Proof.
  destruct t as [tag | digest]; simpl.
  - intros (name & w & _ & ->). by eexists.
  - intros (w & ->). by eexists.
Qed.

(** Every delete call either counts as a deletion or is a failure. *)
Lemma deletions_failures p ts cs :
  Forall2 (called p) ts cs -> (deletions cs + failures cs)%nat = length ts.
Proof.
  unfold deletions, failures. induction 1 as [| t c ts cs Hc _ IH]; simpl; [done |].
  apply called_delete_reply in Hc as [r Hr].
  unfold deleted_call at 1, failed_call at 1. rewrite Hr.
  destruct (counts_as_deleted r); simpl; lia.
Qed.

Lemma recoverable_no_failures p ts cs :
  Forall2 (called p) ts cs -> Forall (recoverable p) ts -> failures cs = 0%nat.
Proof.
  unfold failures. induction 1 as [| t c ts cs Hc _ IH]; simpl; [done |].
  intros Hrec. inversion_clear Hrec as [| ? ? Ht Hts]. rewrite (IH Hts).
  unfold failed_call. destruct t as [tag | digest]; simpl in *.
  - destruct Hc as (name & w & Hn & ->). simpl. by rewrite (Ht name Hn w).
  - destruct Hc as (w & ->). simpl. by rewrite (Ht w).
Qed.

End Counting.

(** ** [PurgeTags] and [PurgeManifests] *)

Lemma counts_as_deleted_iff r :
  counts_as_deleted r = true <-> succeeds r \/ fails_not_found r.
Proof.
  destruct r as [resp [e |]]; unfold counts_as_deleted, succeeds, fails_not_found; simpl.
  - unfold is_not_found. split.
    + destruct resp as [[[h |]] |]; simpl; try done.
      intros Hh%Z.eqb_eq. right. by eexists _, _, _.
    + intros [? | (resp' & h & e' & [= -> ->] & Hresp & Hh)]; [done |].
      rewrite Hresp. by apply Z.eqb_eq.
  - split; [by left | done].
Qed.

Section PurgeFacts.

Context {World : Type} `{Client : AcrCLIClientInterface World}.

Lemma named_tasks tags : Forall named tags -> Forall has_name (map TagTask tags).
Proof. intros H. apply Forall_map. exact H. Qed.

Lemma manifest_tasks_named manifests : Forall has_name (map ManifestTask manifests).
Proof. apply Forall_map. by apply Forall_true. Qed.

Ltac purge_skeleton lem ts s0 :=
  destruct (group_run_spec _ _ lem ts s0)
    as (s' & cs & order & Hs' & Hperm & Hcalled & Hcalls & Hdel & Herr & Hq & Hsub & Hsc);
  [ first [ by apply named_tasks | apply manifest_tasks_named ] | ].

Lemma Part001_PurgeTags_purged p tags s0 :
  Forall named tags -> purged p (map TagTask tags) s0 (Part001.PurgeTags p tags s0).
Proof.
  intros Hn. unfold Part001.PurgeTags, bind, Int64_new, NewGroup, Load, ret.
  rewrite submit_all.
  purge_skeleton (Part001_runs_tasks p) (map TagTask tags) s0.
  unfold enqueue in Hs'; simpl in Hs'. unfold enqueue; simpl. rewrite Hs', Hdel.
  by exists s', cs, order.
Qed.

Lemma Part001_PurgeManifests_purged p manifests s0 :
  purged p (map ManifestTask manifests) s0 (Part001.PurgeManifests p manifests s0).
Proof.
  unfold Part001.PurgeManifests, bind, Int64_new, NewGroup, Load, ret.
  rewrite submit_all.
  purge_skeleton (Part001_runs_tasks p) (map ManifestTask manifests) s0.
  unfold enqueue in Hs'; simpl in Hs'. unfold enqueue; simpl. rewrite Hs', Hdel.
  by exists s', cs, order.
Qed.

Lemma Worker_PurgeTags_purged p tags s0 :
  Forall named tags -> purged p (map TagTask tags) s0 (Worker.PurgeTags p tags s0).
Proof.
  intros Hn. unfold Worker.PurgeTags, bind, emit, Int64_new, NewGroup, Load, ret.
  rewrite submit_all.
  match goal with |- context [Wait (Worker.run_task p ?log) (enqueue _ (_ (_ (_ ?s1))))] =>
    purge_skeleton (Worker_runs_tasks p log) (map TagTask tags) s1 end.
  unfold enqueue in Hs'; simpl in Hs'. unfold enqueue; simpl. rewrite Hs', Hdel.
  by exists s', cs, order.
Qed.

Lemma Worker_PurgeManifests_purged p manifests s0 :
  purged p (map ManifestTask manifests) s0 (Worker.PurgeManifests p manifests s0).
Proof.
  unfold Worker.PurgeManifests, bind, emit, Int64_new, NewGroup, Load, ret.
  rewrite submit_all.
  match goal with |- context [Wait (Worker.run_task p ?log) (enqueue _ (_ (_ (_ ?s1))))] =>
    purge_skeleton (Worker_runs_tasks p log) (map ManifestTask manifests) s1 end.
  unfold enqueue in Hs'; simpl in Hs'. unfold enqueue; simpl. rewrite Hs', Hdel.
  eexists _, cs, order. split_and!; try done.
Qed.

(** A purge in which every delete call counts as deleted. *)
Lemma purged_all_deleted p total s0 r :
  purged p total s0 r -> Forall (recoverable p) total ->
  Z.of_nat (length total) < 2 ^ 63 ->
  exists s', r = Done (Z.of_nat (length total), None) s'.
Proof.
  intros (s' & cs & order & -> & Hperm & Hcalled & _) Hrec Hlen.
  rewrite <- Hperm in Hrec.
  pose proof (deletions_failures p order cs Hcalled) as Hsum.
  pose proof (recoverable_no_failures p order cs Hcalled Hrec) as Hfail.
  rewrite Hperm in Hsum.
  assert (Hdel : deletions cs = length total) by lia.
  rewrite Hdel, (proj2 (first_error_None cs) Hfail).
  rewrite wrap64_small by lia. by exists s'.
Qed.

Lemma purged_accounted p total w sc r :
  purged p total (initial w sc) r -> Z.of_nat (length total) < 2 ^ 63 ->
  accounted (length total) r.
Proof.
  intros (s' & cs & order & -> & Hperm & Hcalled & Hcalls & _) Hlen.
  simpl in Hcalls. subst cs.
  pose proof (deletions_failures p order _ Hcalled) as Hsum.
  rewrite Hperm in Hsum.
  exists (wrap64 (Z.of_nat (deletions (calls s')))), (first_error (calls s')), s'.
  rewrite wrap64_small by lia. split_and!; try done.
  - rewrite <- (Forall2_length _ _ _ Hcalled). by rewrite Hperm.
  - lia.
  - intros Hone. split; [lia |]. intros Hnone%first_error_None. lia.
Qed.

End PurgeFacts.

(** ** The claims on [PurgeTags] and [PurgeManifests] *)

Section PurgeClaims.

Context {World : Type} `{Client : AcrCLIClientInterface World}.

(** C3. When every delete call of a list of tags, and of a list of
    manifest digests, succeeds or fails with HTTP status not-found,
    [PurgeTags] and [PurgeManifests] (both versions of each) return the
    length of their list and no error, under every schedule: a not-found
    counts exactly like a success. *)
Theorem purge_not_found_is_success (p : Purger) (w : World) (sc : list (list nat))
    (tags : list TagAttributesBase) (manifests : list string) :
  Z.of_nat (length tags) < 2 ^ 63 ->
  Z.of_nat (length manifests) < 2 ^ 63 ->
  Forall (fun tag => exists name, Name tag = Some name /\
            forall w', succeeds (DeleteAcrTag (repoName p) name w').1 \/
                       fails_not_found (DeleteAcrTag (repoName p) name w').1) tags ->
  Forall (fun digest =>
            forall w', succeeds (DeleteManifest (repoName p) digest w').1 \/
                       fails_not_found (DeleteManifest (repoName p) digest w').1) manifests ->
  (exists s', Part001.PurgeTags p tags (initial w sc)
              = Done (Z.of_nat (length tags), None) s') /\
  (exists s', Part001.PurgeManifests p manifests (initial w sc)
              = Done (Z.of_nat (length manifests), None) s') /\
  (exists s', Worker.PurgeTags p tags (initial w sc)
              = Done (Z.of_nat (length tags), None) s') /\
  (exists s', Worker.PurgeManifests p manifests (initial w sc)
              = Done (Z.of_nat (length manifests), None) s').
Proof.
  intros Hlt Hlm Htags Hmanifests.
  assert (Hnamed : Forall named tags).
  { eapply Forall_impl; [exact Htags |]. intros tag (name & Hn & _). by exists name. }
  assert (Hrt : Forall (recoverable p) (map TagTask tags)).
  { apply Forall_map. eapply Forall_impl; [exact Htags |].
    intros tag (name & Hn & Hok) name' Hn' w'. simpl in *.
    assert (name' = name) as -> by congruence. by apply counts_as_deleted_iff. }
  assert (Hrm : Forall (recoverable p) (map ManifestTask manifests)).
  { apply Forall_map. eapply Forall_impl; [exact Hmanifests |].
    intros digest Hok w'. by apply counts_as_deleted_iff. }
  split_and!.
  - destruct (purged_all_deleted p _ _ _ (Part001_PurgeTags_purged p tags (initial w sc) Hnamed) Hrt)
      as [s' Hs']; [by rewrite length_map |]. rewrite length_map in Hs'. by exists s'.
  - destruct (purged_all_deleted p _ _ _ (Part001_PurgeManifests_purged p manifests (initial w sc)) Hrm)
      as [s' Hs']; [by rewrite length_map |]. rewrite length_map in Hs'. by exists s'.
  - destruct (purged_all_deleted p _ _ _ (Worker_PurgeTags_purged p tags (initial w sc) Hnamed) Hrt)
      as [s' Hs']; [by rewrite length_map |]. rewrite length_map in Hs'. by exists s'.
  - destruct (purged_all_deleted p _ _ _ (Worker_PurgeManifests_purged p manifests (initial w sc)) Hrm)
      as [s' Hs']; [by rewrite length_map |]. rewrite length_map in Hs'. by exists s'.
Qed.

(** C4. For lists of named tags and of manifest digests, [PurgeTags] and
    [PurgeManifests] (both versions of each) return, under every schedule
    and whatever the registry answers: every target is tried once, the
    count plus the number of delete calls that returned a non-recoverable
    error is the number of targets, and when exactly one delete call
    failed so the count is the length minus one and the error is not
    nil. *)
Theorem purge_count_plus_failures (p : Purger) (w : World) (sc : list (list nat))
    (tags : list TagAttributesBase) (manifests : list string) :
  Z.of_nat (length tags) < 2 ^ 63 ->
  Z.of_nat (length manifests) < 2 ^ 63 ->
  Forall named tags ->
  accounted (length tags) (Part001.PurgeTags p tags (initial w sc)) /\
  accounted (length manifests) (Part001.PurgeManifests p manifests (initial w sc)) /\
  accounted (length tags) (Worker.PurgeTags p tags (initial w sc)) /\
  accounted (length manifests) (Worker.PurgeManifests p manifests (initial w sc)).
Proof.
  intros Hlt Hlm Hnamed.
  rewrite <- (length_map TagTask tags), <- (length_map ManifestTask manifests) in *.
  split_and!; eapply purged_accounted; try done.
  - by apply Part001_PurgeTags_purged.
  - by apply Part001_PurgeManifests_purged.
  - rewrite (length_map TagTask) in *.
    pose proof (Worker_PurgeTags_purged p tags (initial w sc) Hnamed) as H.
    exact H.
  - pose proof (Worker_PurgeManifests_purged p manifests (initial w sc)) as H.
    rewrite (length_map ManifestTask) in *. exact H.
Qed.


End PurgeClaims.

(** ** The two versions of the tag purge *)

Section Simulation.

Context {World : Type} `{Client : AcrCLIClientInterface World}.

Local Abbreviation respects := (respects (World := World)).

Lemma respects_bind {A B} (m1 m2 : M World A) (k1 k2 : A -> M World B) :
  respects m1 m2 -> (forall a, respects (k1 a) (k2 a)) ->
  respects (let* x := m1 in k1 x) (let* x := m2 in k2 x).
Proof.
  intros Hm Hk s1 s2 Hs. unfold bind. specialize (Hm s1 s2 Hs).
  destruct (m1 s1), (m2 s2); simpl in Hm; try done.
  destruct Hm as [-> Hs']. by apply Hk.
Qed.

Lemma respects_ret {A} (a : A) : respects (ret a) (ret a).
Proof. by intros s1 s2 Hs. Qed.

Lemma respects_emit_l {A} (o : Output) (m1 m2 : M World A) :
  respects m1 m2 -> respects m1 (let* _ := emit o in m2).
Proof. intros Hm s1 s2 Hs. unfold bind, emit. apply Hm. exact Hs. Qed.

Lemma respects_Int64_new : respects Int64_new Int64_new.
Proof. intros s1 s2 (? & ? & ? & ? & ? & ? & ?). simpl. by split_and!. Qed.

Lemma respects_NewGroup : respects NewGroup NewGroup.
Proof. intros s1 s2 (? & ? & ? & ? & ? & ? & ?). simpl. by split_and!. Qed.

Lemma respects_SubmitErr t : respects (SubmitErr t) (SubmitErr t).
Proof.
  intros s1 s2 (? & ? & ? & ? & ? & ? & ?). simpl. split; [done |].
  unfold same_but_output. simpl. split_and!; congruence.
Qed.

Lemma respects_Load : respects Load Load.
Proof. intros s1 s2 Hs. simpl. split; [apply Hs | exact Hs]. Qed.

Lemma respects_next_choice : respects next_choice next_choice.
Proof.
  intros s1 s2 Hs. pose proof Hs as (? & ? & ? & ? & Hsc & ? & ?).
  unfold next_choice. rewrite Hsc. destruct (sched s2); simpl; [done |].
  by split_and!.
Qed.

Lemma respects_for_each {A} (l : list A) (f1 f2 : A -> M World unit) :
  (forall x, respects (f1 x) (f2 x)) -> respects (for_each l f1) (for_each l f2).
Proof.
  intros Hf. induction l as [| x l IH]; simpl.
  - apply respects_ret.
  - apply respects_bind; [apply Hf | intros _; exact IH].
Qed.

Variable p : Purger.
Variables run1 run2 : Task -> M World (option error).
Hypothesis Hrun1 : runs_tasks p run1.
Hypothesis Hrun2 : runs_tasks p run2.

Lemma respects_run_task t : respects (run1 t) (run2 t).
Proof.
  intros s1 s2 (Hw & Hd & Hq & Hg & Hsc & Hc & Hsub).
  destruct (Hrun1 t s1) as [o1 ->], (Hrun2 t s2) as [o2 ->].
  unfold task_result. rewrite Hw.
  destruct t as [tag | digest]; [destruct (Name tag) |];
    simpl; unfold same_but_output, after_delete; simpl; rewrite ?Hd; split_and!; congruence.
Qed.

Lemma respects_run_one t : respects (run_one run1 t) (run_one run2 t).
Proof.
  unfold run_one. apply respects_bind; [apply respects_run_task |].
  intros err s1 s2 Hs. pose proof Hs as (? & ? & ? & Hg & ? & ? & ?).
  rewrite Hg. destruct (group_err s2), err; simpl; done.
Qed.

Lemma respects_Wait : respects (Wait run1) (Wait run2).
Proof.
  unfold Wait. apply respects_bind; [apply respects_next_choice |].
  intros picks s1 s2 Hs. pose proof Hs as (? & ? & Hq & ? & ? & ? & ?).
  rewrite Hq. destruct (pick_tasks picks (queue s2)) as [now later].
  apply respects_bind.
  - apply respects_for_each, respects_run_one.
  - intros _ s1' s2' Hs'. simpl. split; [apply Hs' | exact Hs'].
  - by split_and!.
Qed.

End Simulation.

Section Equivalence.

Context {World : Type} `{Client : AcrCLIClientInterface World}.

(** C10. The two versions of [PurgeTags] end the same way on every list
    of tags, every registry and every schedule: both return the same
    count and the same error or both panic, after the same calls on the
    registry and leaving it in the same state; only their output
    differs. *)
Theorem PurgeTags_versions_agree (p : Purger) (tags : list TagAttributesBase)
    (w : World) (sc : list (list nat)) :
  same_result (Part001.PurgeTags p tags (initial w sc))
              (Worker.PurgeTags p tags (initial w sc)).
Proof.
  assert (Hinit : same_but_output (initial w sc) (initial w sc)) by by split_and!.
  revert Hinit. generalize (initial w sc) at 1 3. generalize (initial w sc).
  intros s2 s1. fold (respects (Part001.PurgeTags p tags) (Worker.PurgeTags p tags)).
  unfold Part001.PurgeTags, Worker.PurgeTags.
  apply respects_emit_l.
  apply respects_bind; [apply respects_Int64_new | intros _].
  apply respects_bind; [apply respects_NewGroup | intros _].
  apply respects_bind; [apply respects_for_each; intros tag; apply respects_SubmitErr | intros _].
  apply respects_bind.
  - apply (respects_Wait p); [apply Part001_runs_tasks | apply Worker_runs_tasks].
  - intros err. apply respects_bind; [apply respects_Load | intros n; apply respects_ret].
Qed.

End Equivalence.

(** ** The untagged sweep *)

Lemma list_cursors_app cs1 cs2 : list_cursors (cs1 ++ cs2) = list_cursors cs1 ++ list_cursors cs2.
Proof. apply omap_app. Qed.

Lemma deleted_digests_app cs1 cs2 :
  deleted_digests (cs1 ++ cs2) = deleted_digests cs1 ++ deleted_digests cs2.
Proof. apply omap_app. Qed.

Lemma listed_records_app cs1 cs2 :
  listed_records (cs1 ++ cs2) = listed_records cs1 ++ listed_records cs2.
Proof. apply flat_map_app. Qed.

Section SweepFacts.

Context {World : Type} `{Client : AcrCLIClientInterface World}.

Variable IsManifestDeletable : ManifestAttributesBase -> bool.
Variable p : Purger.
Variable toSkip : gset string.

Local Abbreviation loop := (Part001.PurgeUntaggedManifests_loop IsManifestDeletable).
Local Abbreviation run := (Part001.run_task p).
Local Abbreviation wanted := (wanted IsManifestDeletable toSkip).
Local Abbreviation list_reply := (list_reply p).
Local Abbreviation listed := (listed p).
Local Abbreviation after_yield := (after_yield IsManifestDeletable p toSkip).
Local Abbreviation from_registry := (from_registry p).
Local Abbreviation sweep_inv := (sweep_inv IsManifestDeletable p toSkip).
Local Abbreviation loop_post := (loop_post IsManifestDeletable p toSkip).
Local Abbreviation sweep_post := (sweep_post IsManifestDeletable p toSkip).

Lemma range_spec (ms : list ManifestAttributesBase) (s : State World) :
  for_each ms (Part001.PurgeUntaggedManifests_range IsManifestDeletable toSkip) s
  = Done tt (enqueue (omap wanted ms) s).
Proof.
  revert s. induction ms as [| m ms IH]; intros s; simpl.
  - by rewrite enqueue_nil.
  - unfold bind, Part001.PurgeUntaggedManifests_range at 1, wanted at 1.
    destruct (Digest m) as [d |]; simpl; [| by rewrite IH].
    destruct (IsManifestDeletable m); simpl; [| by rewrite IH].
    unfold bind, deref, ret.
    destruct (decide (d ∈ toSkip)) as [Hin | Hout].
    + rewrite bool_decide_false by (intros H; by apply H). by rewrite IH.
    + rewrite bool_decide_true by done. unfold SubmitErr. rewrite IH.
      f_equal. apply (enqueue_app [ManifestTask d] (omap wanted ms) s).
Qed.

Lemma loop_unfold fuel cursor s :
  loop (S fuel) p toSkip cursor s
  = match yield run s with
    | Done _ s1 => after_yield fuel cursor s1
    | Panic s' => Panic s'
    | OutOfFuel s' => OutOfFuel s'
    end.
Proof.
  simpl. unfold bind at 1. destruct (yield run s) as [[] s1 | |]; [| done | done].
  unfold after_yield, listed, list_reply, bind at 1, call_GetAcrManifests.
  destruct (GetAcrManifests (repoName p) "" cursor (world s1)) as [[rm [e |]] w];
    cbn [fst snd].
  { by destruct (Part001.list_not_found rm). }
  unfold page_of. destruct rm as [rm |]; [| done].
  destruct (ManifestsAttributes rm) as [ms |]; cbn [default]; [| done].
  destruct ms as [| m ms]; [done |].
  remember (m :: ms) as l eqn:Hl.
  replace (length l =? 0)%nat with false by (by rewrite Hl).
  unfold bind. rewrite range_spec.
  unfold Part001.index, id. rewrite last_lookup.
  replace (Init.Nat.pred (length l)) with (length l - 1)%nat by lia.
  destruct (l !! (length l - 1)%nat) as [m' |] eqn:Hm'.
  - cbn [mbind option_bind]. unfold bind, deref, ret, panic.
    destruct (Digest m'); by destruct l.
  - apply lookup_ge_None in Hm'. rewrite Hl in Hm'. simpl in Hm'. lia.
Qed.

Lemma manifest_tasks_have_names q : Forall is_manifest_task q -> Forall has_name q.
Proof. intros H. eapply Forall_impl; [exact H |]. by intros []. Qed.

Lemma sweep_inv_int s : sweep_inv s -> in_int64 (deleted s).
Proof. intros []. rewrite inv_deleted0. apply wrap64_in_int64. Qed.

(** The calls a run of manifest tasks makes. *)
Lemma manifest_calls now cs :
  Forall2 (called p) now cs -> Forall is_manifest_task now ->
  map ManifestTask (deleted_digests cs) = now /\ list_cursors cs = [] /\
  listed_records cs = [] /\ Forall from_registry cs /\ no_failed_listing cs.
Proof.
  unfold no_failed_listing.
  induction 1 as [| t c now cs Hc _ IH]; intros Hm; [by split_and! |].
  inversion_clear Hm as [| ? ? Ht Hnow].
  destruct (IH Hnow) as (IH1 & IH2 & IH3 & IH4 & IH5).
  destruct t as [tag | digest]; [done |]. destruct Hc as (w & ->).
  cbn [deleted_digests list_cursors listed_records omap list_omap flat_map map app].
  fold (deleted_digests cs). fold (list_cursors cs). fold (listed_records cs).
  rewrite IH1, IH2, IH3. split_and!; try done.
  - constructor; [| done]. split; [done | by exists w].
  - constructor; [| done]. by intros [].
Qed.

Lemma sweep_inv_ran now cs s s' :
  sweep_inv s -> ran p now cs s s' -> now ++ queue s' ≡ₚ queue s ->
  sweep_inv s' /\ list_cursors (calls s') = list_cursors (calls s) /\
  listed_records (calls s') = listed_records (calls s) /\
  submitted s' = submitted s /\
  (no_failed_listing (calls s) -> no_failed_listing (calls s')).
Proof.
  intros [Hq Hd He Hp Hs Hc] [Hcalled Hcalls Hdel Herr Hsub] Hperm.
  assert (Hall : Forall is_manifest_task (now ++ queue s')) by by rewrite Hperm.
  apply Forall_app in Hall as [Hnow Hq'].
  destruct (manifest_calls now cs Hcalled Hnow) as (H1 & H2 & H3 & H4 & H5).
  split_and!.
  - split.
    + done.
    + rewrite Hdel, Hd, wrap64_add_l, Hcalls, deletions_app. f_equal. lia.
    + rewrite Herr, He, Hcalls, first_error_app. by destruct (first_error (calls s)).
    + rewrite Hcalls, deleted_digests_app, map_app, H1, Hsub, <- Hp, <- Hperm.
      by rewrite app_assoc.
    + by rewrite Hsub, Hs, Hcalls, listed_records_app, H3, app_nil_r.
    + rewrite Hcalls. by apply Forall_app.
  - by rewrite Hcalls, list_cursors_app, H2, app_nil_r.
  - by rewrite Hcalls, listed_records_app, H3, app_nil_r.
  - done.
  - intros Hno. rewrite Hcalls. by apply Forall_app.
Qed.

Lemma sweep_inv_listed cursor s :
  sweep_inv s ->
  sweep_inv (enqueue (omap wanted (page_of (list_reply cursor s))) (listed cursor s)).
Proof.
  intros [Hq Hd He Hp Hs Hc]. split; cbn [enqueue listed add_call set_world
    queue deleted group_err submitted calls].
  - apply Forall_app. split; [done |].
    induction (page_of (list_reply cursor s)) as [| m ms IH]; [constructor |].
    cbn [omap list_omap]. unfold wanted at 1.
    destruct (Digest m); [| exact IH].
    destruct (IsManifestDeletable m && bool_decide (_ ∉ toSkip)); [| exact IH].
    by constructor.
  - rewrite Hd, deletions_app. unfold deletions at 2. simpl. by rewrite Nat.add_0_r.
  - rewrite He, first_error_app. simpl. by destruct (first_error (calls s)).
  - rewrite deleted_digests_app. cbn [deleted_digests omap list_omap].
    rewrite app_nil_r, app_assoc, Hp. done.
  - rewrite Hs, listed_records_app. cbn [listed_records flat_map].
    by rewrite app_nil_r, omap_app.
  - apply Forall_app. split; [done |]. constructor; [| done].
    split_and!; try done. by exists (world s).
Qed.

(** The state in which the loop of the sweep is entered. *)
Lemma sweep_inv_start w sc :
  sweep_inv (set_group_err None (set_queue [] (set_deleted 0 (initial w sc)))).
Proof. split; simpl; try done. Qed.

(** A round of the loop begins with some progress of the workers, which
    keeps the invariant and adds delete calls only. *)
Lemma loop_round fuel cursor s :
  sweep_inv s ->
  exists s1,
    loop (S fuel) p toSkip cursor s = after_yield fuel cursor s1 /\
    sweep_inv s1 /\ list_cursors (calls s1) = list_cursors (calls s) /\
    listed_records (calls s1) = listed_records (calls s) /\
    submitted s1 = submitted s /\
    (no_failed_listing (calls s) -> no_failed_listing (calls s1)).
Proof.
  intros Hinv. rewrite loop_unfold.
  destruct (yield_spec p run (Part001_runs_tasks p) s)
    as (s1 & cs & now & -> & Hperm & Hran & _).
  { apply manifest_tasks_have_names, Hinv. }
  { by apply sweep_inv_int. }
  exists s1. split; [done |]. by apply (sweep_inv_ran now cs).
Qed.

Lemma no_failed_listing_listed cursor s :
  no_failed_listing (calls s) -> (list_reply cursor s).2 = None ->
  no_failed_listing (calls (listed cursor s)).
Proof.
  intros Hno Hok. apply Forall_app. split; [done |]. constructor; [| done].
  simpl. rewrite Hok. by intros [].
Qed.

Lemma loop_cases fuel cursor s :
  sweep_inv s -> no_failed_listing (calls s) -> loop_post (loop fuel p toSkip cursor s).
Proof.
  revert cursor s. induction fuel as [| fuel IH]; intros cursor s Hinv Hno; [by split |].
  destruct (loop_round fuel cursor s Hinv) as (s1 & -> & Hinv1 & _ & _ & _ & Hno1).
  specialize (Hno1 Hno). clear s Hinv Hno.
  pose proof (sweep_inv_listed cursor s1 Hinv1) as Hinv2.
  unfold after_yield.
  destruct (list_reply cursor s1).2 as [e |] eqn:Herr.
  - assert (Hpage : page_of (list_reply cursor s1) = []).
    { destruct (list_reply cursor s1) as [[rm |] err]; simpl in *; by subst. }
    rewrite Hpage in Hinv2. cbn [omap list_omap] in Hinv2. rewrite enqueue_nil in Hinv2.
    split; [done |]. split; [done |].
    exists (calls s1), cursor, (list_reply cursor s1), e. by split_and!.
  - pose proof (no_failed_listing_listed cursor s1 Hno1 Herr) as Hno2.
    destruct (page_of (list_reply cursor s1)) as [| m ms] eqn:Hpage.
    + cbn [omap list_omap] in Hinv2. rewrite enqueue_nil in Hinv2. by split.
    + rewrite <- Hpage in *.
      destruct (mbind Digest (last (page_of (list_reply cursor s1)))) as [d |] eqn:Hlast.
      * by apply IH.
      * split; [done |]. split; [done |]. cbn [final enqueue listed add_call calls].
        rewrite listed_records_app. cbn [listed_records flat_map]. rewrite app_nil_r.
        rewrite last_app.
        destruct (last (page_of (list_reply cursor s1))) as [m' |] eqn:Hm'.
        -- exists m'. done.
        -- rewrite Hpage in Hm'. by apply last_None in Hm'.
Qed.

(** A round that lists a page whose last record has a digest goes on
    with that digest as the cursor, the wanted tasks submitted. *)
Lemma loop_page fuel cursor s ms d :
  sweep_inv s ->
  (forall w, page_of (GetAcrManifests (repoName p) "" cursor w).1 = ms /\
             (GetAcrManifests (repoName p) "" cursor w).1.2 = None) ->
  ms <> [] -> mbind Digest (last ms) = Some d ->
  exists s3,
    loop (S fuel) p toSkip cursor s = loop fuel p toSkip d s3 /\
    sweep_inv s3 /\ list_cursors (calls s3) = list_cursors (calls s) ++ [cursor] /\
    submitted s3 = submitted s ++ omap wanted ms.
Proof.
  intros Hinv Hreply Hne Hlast.
  destruct (loop_round fuel cursor s Hinv) as (s1 & -> & Hinv1 & Hcur & _ & Hsub & _).
  pose proof (sweep_inv_listed cursor s1 Hinv1) as Hinv2.
  destruct (Hreply (world s1)) as [Hpage Herr]. fold (list_reply cursor s1) in Hpage, Herr.
  unfold after_yield. rewrite Herr, Hpage, Hlast. rewrite Hpage in Hinv2.
  destruct ms as [| m ms]; [done |].
  eexists. split; [reflexivity |]. split; [done |].
  cbn [enqueue listed add_call set_world submitted calls].
  rewrite list_cursors_app, Hcur, Hsub. done.
Qed.

(** A round that lists an empty page leaves the loop. *)
Lemma loop_end fuel cursor s :
  sweep_inv s ->
  (forall w, page_of (GetAcrManifests (repoName p) "" cursor w).1 = [] /\
             (GetAcrManifests (repoName p) "" cursor w).1.2 = None) ->
  exists s2,
    loop (S fuel) p toSkip cursor s = Done Part001.Break s2 /\
    sweep_inv s2 /\ list_cursors (calls s2) = list_cursors (calls s) ++ [cursor] /\
    submitted s2 = submitted s.
Proof.
  intros Hinv Hreply.
  destruct (loop_round fuel cursor s Hinv) as (s1 & -> & Hinv1 & Hcur & _ & Hsub & _).
  pose proof (sweep_inv_listed cursor s1 Hinv1) as Hinv2.
  destruct (Hreply (world s1)) as [Hpage Herr]. fold (list_reply cursor s1) in Hpage, Herr.
  unfold after_yield. rewrite Herr, Hpage. rewrite Hpage in Hinv2.
  cbn [omap list_omap] in Hinv2. rewrite enqueue_nil in Hinv2.
  eexists. split; [reflexivity |]. split; [done |].
  cbn [listed add_call set_world submitted calls]. rewrite list_cursors_app, Hcur. done.
Qed.

(** The join that follows the loop. *)
Lemma sweep_join s :
  sweep_inv s ->
  exists s',
    Wait run s = Done (group_err s') s' /\ sweep_inv s' /\ queue s' = [] /\
    list_cursors (calls s') = list_cursors (calls s) /\
    listed_records (calls s') = listed_records (calls s) /\
    submitted s' = submitted s /\
    (no_failed_listing (calls s) -> no_failed_listing (calls s')).
Proof.
  intros Hinv.
  destruct (Wait_spec p run (Part001_runs_tasks p) s)
    as (s' & cs & order & Hs' & Hperm & Hran & Hq & _).
  { apply manifest_tasks_have_names, Hinv. }
  { by apply sweep_inv_int. }
  exists s'. split; [done |].
  destruct (sweep_inv_ran order cs s s' Hinv Hran) as (H1 & H2 & H3 & H4 & H5).
  { by rewrite Hq, app_nil_r. }
  by split_and!.
Qed.

(** A round that lists a page whose last record has no digest panics. *)
Lemma loop_panic fuel cursor s ms :
  sweep_inv s ->
  (forall w, page_of (GetAcrManifests (repoName p) "" cursor w).1 = ms /\
             (GetAcrManifests (repoName p) "" cursor w).1.2 = None) ->
  ms <> [] -> mbind Digest (last ms) = None ->
  exists s3, loop (S fuel) p toSkip cursor s = Panic s3.
Proof.
  intros Hinv Hreply Hne Hlast.
  destruct (loop_round fuel cursor s Hinv) as (s1 & -> & _).
  destruct (Hreply (world s1)) as [Hpage Herr]. fold (list_reply cursor s1) in Hpage, Herr.
  unfold after_yield. rewrite Herr, Hpage, Hlast.
  destruct ms as [| m ms]; [done |]. by eexists.
Qed.

Lemma sweep_cases fuel w sc :
  sweep_post (Part001.PurgeUntaggedManifests IsManifestDeletable fuel p toSkip (initial w sc)).
Proof.
  unfold Part001.PurgeUntaggedManifests, bind at 1 2 3, Int64_new, NewGroup.
  pose proof (loop_cases fuel "" _ (sweep_inv_start w sc)) as Hloop.
  match type of Hloop with _ -> loop_post (?l ?f ?pp ?sk ?c ?s0) =>
    destruct (l f pp sk c s0) as [[| n err] s1 | s1 | s1] eqn:Hl end;
    (destruct Hloop as [Hinv Hpost]; [by constructor |]); cbn [final] in Hinv.
  - unfold bind, Load, ret.
    destruct (sweep_join s1 Hinv) as (s' & -> & Hinv' & Hq & _ & _ & _ & Hno).
    split; [done |]. left. split_and!; try done. by apply Hno.
  - unfold ret. split; [done |]. by right.
  - by split.
  - by split.
Qed.

End SweepFacts.

(** ** The claims on [PurgeUntaggedManifests] *)

Section SweepClaims.

Context {World : Type} `{Client : AcrCLIClientInterface World}.

Variable IsManifestDeletable : ManifestAttributesBase -> bool.

Lemma reports_not_found_list_not_found rm e :
  reports_not_found (rm, Some e) -> Part001.list_not_found rm = true.
Proof.
  intros (rm' & h & e' & [= -> ->] & Hresp & Hh). unfold Part001.list_not_found.
  rewrite Hresp. by apply Z.eqb_eq.
Qed.

Lemma no_failed_listing_elem cs c : no_failed_listing cs -> c ∈ cs -> ~ failed_listing c.
Proof. intros Hno Hin. by apply (proj1 (Forall_forall _ _) Hno). Qed.

(** C6. If, in a run of the sweep, a listing call reports
    repository-not-found (whichever round it is, whatever was submitted or
    deleted before), then the sweep returns count 0 and no error. *)
Theorem sweep_repository_not_found (fuel : nat) (p : Purger) (toSkip : gset string)
    (w : World) (sc : list (list nat)) :
  (exists repo filter cursor reply,
     CallGetAcrManifests repo filter cursor reply
       ∈ calls (final (Part001.PurgeUntaggedManifests IsManifestDeletable fuel p toSkip
                         (initial w sc))) /\
     reports_not_found reply) ->
  exists s', Part001.PurgeUntaggedManifests IsManifestDeletable fuel p toSkip (initial w sc)
             = Done (0, None) s'.
Proof.
  intros (repo & filter & cursor & reply & Hin & Hnf).
  assert (Hfail : failed_listing (CallGetAcrManifests repo filter cursor reply)).
  { destruct Hnf as (rm & h & e & -> & _). by eexists. }
  destruct (sweep_cases IsManifestDeletable p toSkip fuel w sc) as [_ Hpost].
  destruct (Part001.PurgeUntaggedManifests IsManifestDeletable fuel p toSkip (initial w sc))
    as [[n err] s' | s' | s']; cbn [final] in Hin.
  - destruct Hpost as [(Hno & _) | (-> & cs0 & cursor' & reply' & e & Hcalls & Hno & He & ->)].
    + by destruct (no_failed_listing_elem _ _ Hno Hin).
    + rewrite Hcalls in Hin. apply elem_of_app in Hin as [Hin | Hin].
      * by destruct (no_failed_listing_elem _ _ Hno Hin).
      * apply list_elem_of_singleton in Hin. injection Hin as _ _ _ <-.
        destruct reply as [rm e']. simpl in He. subst e'.
        cbn [fst]. rewrite (reports_not_found_list_not_found _ _ Hnf). by exists s'.
  - destruct Hpost as [Hno _]. by destruct (no_failed_listing_elem _ _ Hno Hin).
  - by destruct (no_failed_listing_elem _ _ Hpost Hin).
Qed.

(** C8. If, in a run of the sweep, a listing call returns an error
    (not-found or any other), then the sweep returns count 0 right after
    that call, which is the last call of the run: the group is not
    joined, so the tasks submitted that have not run are still queued, and
    the counter, which holds the deletions done by the tasks that have
    run, is not what is returned. *)
Theorem sweep_listing_error_abandons_tasks (fuel : nat) (p : Purger)
    (toSkip : gset string) (w : World) (sc : list (list nat)) :
  (exists c,
     c ∈ calls (final (Part001.PurgeUntaggedManifests IsManifestDeletable fuel p toSkip
                         (initial w sc))) /\
     failed_listing c) ->
  exists err s' cs0 c,
    Part001.PurgeUntaggedManifests IsManifestDeletable fuel p toSkip (initial w sc)
      = Done (0, err) s' /\
    calls s' = cs0 ++ [c] /\ failed_listing c /\ no_failed_listing cs0 /\
    map ManifestTask (deleted_digests (calls s')) ++ queue s' ≡ₚ submitted s' /\
    deleted s' = wrap64 (Z.of_nat (deletions (calls s'))).
Proof.
  intros (c & Hin & Hfail).
  destruct (sweep_cases IsManifestDeletable p toSkip fuel w sc) as [Hinv Hpost].
  destruct (Part001.PurgeUntaggedManifests IsManifestDeletable fuel p toSkip (initial w sc))
    as [[n err] s' | s' | s']; cbn [final] in Hin, Hinv.
  - destruct Hpost as [(Hno & _) | (-> & cs0 & cursor' & reply' & e & Hcalls & Hno & He & ->)].
    + by destruct (no_failed_listing_elem _ _ Hno Hin).
    + eexists _, s', cs0, _. split_and!; try done.
      * simpl. rewrite He. by eexists.
      * apply Hinv.
      * apply Hinv.
  - destruct Hpost as [Hno _]. by destruct (no_failed_listing_elem _ _ Hno Hin).
  - by destruct (no_failed_listing_elem _ _ Hpost Hin).
Qed.

Lemma elem_of_omap_wanted (toSkip : gset string) (t : Task)
    (ms : list ManifestAttributesBase) :
  t ∈ omap (wanted IsManifestDeletable toSkip) ms ->
  exists m d, m ∈ ms /\ Digest m = Some d /\ IsManifestDeletable m = true /\
              (d ∉ toSkip) /\ t = ManifestTask d.
Proof.
  intros (m & Hm & Hw)%list_elem_of_omap. unfold wanted in Hw.
  destruct (Digest m) as [d |] eqn:Hd; [| done].
  destruct (IsManifestDeletable m) eqn:Hdel; [| done]. simpl in Hw.
  destruct (bool_decide (d ∉ toSkip)) eqn:Hskip; [| done].
  apply bool_decide_eq_true in Hskip. injection Hw as <-. by exists m, d.
Qed.

(** When every manifest delete succeeds or fails with not-found, every
    delete call of a sweep counts and none fails. *)
Lemma sweep_all_deleted p cs :
  (forall digest w, succeeds (DeleteManifest (repoName p) digest w).1 \/
                    fails_not_found (DeleteManifest (repoName p) digest w).1) ->
  Forall (from_registry p) cs ->
  deletions cs = length (deleted_digests cs) /\ failures cs = 0%nat.
Proof.
  intros Hok. unfold deletions, failures.
  induction 1 as [| c cs Hc _ [IH1 IH2]]; [done |].
  destruct c as [| repo digest r | repo filter cursor r]; [done | |].
  - destruct Hc as [-> [w ->]].
    cbn [count_calls deleted_digests omap list_omap length]. fold (deleted_digests cs).
    unfold deleted_call at 1, failed_call at 1. cbn [delete_reply].
    rewrite (proj2 (counts_as_deleted_iff _) (Hok digest w)).
    rewrite IH1, IH2. done.
  - cbn [count_calls deleted_digests omap list_omap]. fold (deleted_digests cs).
    unfold deleted_call at 1, failed_call at 1. cbn [delete_reply]. by rewrite IH1, IH2.
Qed.

(** C7. In every run of the sweep, every task submitted is the task of a
    record of a listed page that has a digest, is deletable and whose
    digest is not in the skip-set, and every manifest deleted was
    submitted; and when the listing is one page of three deletable
    manifests [A], [B], [C], then an empty page, the skip-set is [{B}] and
    every delete succeeds or fails with not-found, the sweep calls delete
    for exactly [A] and [C], in some order, and returns the count 2 and no
    error. *)
Theorem sweep_skip_set (p : Purger) (w : World) (sc : list (list nat)) :
  (forall fuel toSkip,
     let s' := final (Part001.PurgeUntaggedManifests IsManifestDeletable fuel p toSkip
                        (initial w sc)) in
     (forall t, t ∈ submitted s' ->
        exists m d, m ∈ listed_records (calls s') /\ Digest m = Some d /\
                    IsManifestDeletable m = true /\ (d ∉ toSkip) /\ t = ManifestTask d) /\
     (forall d, d ∈ deleted_digests (calls s') -> ManifestTask d ∈ submitted s')) /\
  (forall fuel mA mB mC A B C,
     Digest mA = Some A -> Digest mB = Some B -> Digest mC = Some C ->
     A <> B -> C <> B ->
     IsManifestDeletable mA = true -> IsManifestDeletable mB = true ->
     IsManifestDeletable mC = true ->
     (forall w', page_of (GetAcrManifests (repoName p) "" "" w').1 = [mA; mB; mC] /\
                 (GetAcrManifests (repoName p) "" "" w').1.2 = None) ->
     (forall w', page_of (GetAcrManifests (repoName p) "" C w').1 = [] /\
                 (GetAcrManifests (repoName p) "" C w').1.2 = None) ->
     (forall digest w', succeeds (DeleteManifest (repoName p) digest w').1 \/
                        fails_not_found (DeleteManifest (repoName p) digest w').1) ->
     exists s',
       Part001.PurgeUntaggedManifests IsManifestDeletable (S (S fuel)) p {[B]} (initial w sc)
         = Done (2, None) s' /\
       deleted_digests (calls s') ≡ₚ [A; C]).
Proof.
  split.
  - intros fuel toSkip s'.
    destruct (sweep_cases IsManifestDeletable p toSkip fuel w sc) as [Hinv _].
    fold s' in Hinv. destruct Hinv as [_ _ _ Hperm Hsub _]. split.
    + intros t Ht. rewrite Hsub in Ht. by apply elem_of_omap_wanted.
    + intros d Hd. rewrite <- Hperm. apply elem_of_app. left.
      apply list_elem_of_fmap. by exists d.
  - intros fuel mA mB mC A B C HA HB HC HAB HCB HdA HdB HdC Hfirst Hlast Hok.
    unfold Part001.PurgeUntaggedManifests, bind at 1 2 3, Int64_new, NewGroup.
    destruct (loop_page IsManifestDeletable p {[B]} (S fuel) "" _ [mA; mB; mC] C
                (sweep_inv_start IsManifestDeletable p {[B]} w sc) Hfirst)
      as (s3 & -> & Hinv3 & _ & Hsub3); [done | by simpl; rewrite HC |].
    destruct (loop_end IsManifestDeletable p {[B]} fuel C s3 Hinv3 Hlast)
      as (s2 & -> & Hinv2 & _ & Hsub2).
    unfold bind, Load, ret.
    destruct (sweep_join IsManifestDeletable p {[B]} s2 Hinv2)
      as (s' & -> & Hinv' & Hq & _ & _ & Hsub' & _).
    assert (Hsub : submitted s' = [ManifestTask A; ManifestTask C]).
    { rewrite Hsub', Hsub2, Hsub3. cbn [submitted initial set_group_err set_queue
        set_deleted app omap list_omap]. unfold wanted.
      rewrite HA, HB, HC, HdA, HdB, HdC. cbn [andb].
      rewrite (bool_decide_true (A ∉ ({[B]} : gset string)))
        by by apply not_elem_of_singleton.
      rewrite (bool_decide_true (C ∉ ({[B]} : gset string)))
        by by apply not_elem_of_singleton.
      rewrite (bool_decide_false (B ∉ ({[B]} : gset string)))
        by (intros H; by apply H, elem_of_singleton).
      done. }
    destruct Hinv' as [_ Hdel Herr Hperm _ Hcalls].
    rewrite Hq, app_nil_r, Hsub in Hperm.
    assert (Hdigests : deleted_digests (calls s') ≡ₚ [A; C]).
    { apply (fmap_Permutation digest_of) in Hperm.
      rewrite <- list_fmap_compose in Hperm. simpl in Hperm.
      by rewrite list_fmap_id in Hperm. }
    destruct (sweep_all_deleted p (calls s') Hok Hcalls) as [Hcount Hnofail].
    rewrite Hdigests in Hcount. simpl in Hcount.
    exists s'. split; [| done].
    rewrite Hdel, Herr, Hcount, (proj2 (first_error_None _) Hnofail). done.
Qed.

(** C5, as amended. When the listing is three pages of one manifest each,
    then an empty page, the sweep returns after exactly four listing
    calls: the first with the empty cursor and each of the others with the
    digest of the last record of the page before; the fourth call gets the
    empty page that ends the loop. *)
Theorem sweep_pagination (fuel : nat) (p : Purger) (toSkip : gset string)
    (w : World) (sc : list (list nat)) (m1 m2 m3 : ManifestAttributesBase)
    (d1 d2 d3 : string) :
  Digest m1 = Some d1 -> Digest m2 = Some d2 -> Digest m3 = Some d3 ->
  (forall w', page_of (GetAcrManifests (repoName p) "" "" w').1 = [m1] /\
              (GetAcrManifests (repoName p) "" "" w').1.2 = None) ->
  (forall w', page_of (GetAcrManifests (repoName p) "" d1 w').1 = [m2] /\
              (GetAcrManifests (repoName p) "" d1 w').1.2 = None) ->
  (forall w', page_of (GetAcrManifests (repoName p) "" d2 w').1 = [m3] /\
              (GetAcrManifests (repoName p) "" d2 w').1.2 = None) ->
  (forall w', page_of (GetAcrManifests (repoName p) "" d3 w').1 = [] /\
              (GetAcrManifests (repoName p) "" d3 w').1.2 = None) ->
  exists n err s',
    Part001.PurgeUntaggedManifests IsManifestDeletable (S (S (S (S fuel)))) p toSkip
      (initial w sc) = Done (n, err) s' /\
    list_cursors (calls s') = [""; d1; d2; d3].
Proof.
  intros H1 H2 H3 Hp1 Hp2 Hp3 Hp4.
  unfold Part001.PurgeUntaggedManifests, bind at 1 2 3, Int64_new, NewGroup.
  destruct (loop_page IsManifestDeletable p toSkip (S (S (S fuel))) "" _ [m1] d1
              (sweep_inv_start IsManifestDeletable p toSkip w sc) Hp1)
    as (sa & -> & Hinva & Hca & _); [done | by simpl; rewrite H1 |].
  destruct (loop_page IsManifestDeletable p toSkip (S (S fuel)) d1 sa [m2] d2 Hinva Hp2)
    as (sb & -> & Hinvb & Hcb & _); [done | by simpl; rewrite H2 |].
  destruct (loop_page IsManifestDeletable p toSkip (S fuel) d2 sb [m3] d3 Hinvb Hp3)
    as (sc3 & -> & Hinvc & Hcc & _); [done | by simpl; rewrite H3 |].
  destruct (loop_end IsManifestDeletable p toSkip fuel d3 sc3 Hinvc Hp4)
    as (sd & -> & Hinvd & Hcd & _).
  unfold bind, Load, ret.
  destruct (sweep_join IsManifestDeletable p toSkip sd Hinvd)
    as (s' & -> & _ & _ & Hc' & _).
  exists (deleted s'), (group_err s'), s'. split; [done |].
  rewrite Hc', Hcd, Hcc, Hcb, Hca. done.
Qed.

End SweepClaims.

(** ** Concrete runs on the scripted registry *)

Module Runs.
Import Mock Scripts.

Lemma delete_recoverable script target gone :
  target ∉ failing script ->
  succeeds (delete script target gone).1 \/ fails_not_found (delete script target gone).1.
Proof.
  intros Hok. unfold delete. rewrite bool_decide_false by done.
  destruct (bool_decide (target ∈ gone)); [right | left]; [| done].
  by eexists _, _, _.
Qed.

(** C1. On a page whose last record has no digest the sweep panics, for
    every skip-set and schedule: after the records of the page have been
    filtered, the cursor is taken from the last record of the page
    without a nil check. *)
Theorem sweep_nil_last_digest_panics (fuel : nat) (toSkip : gset string)
    (sc : list (list nat)) :
  exists s', sweep malformed_last (S fuel) toSkip sc = Panic s'.
Proof.
  unfold sweep, Part001.PurgeUntaggedManifests, bind at 1 2 3, Int64_new, NewGroup.
  destruct (@loop_panic _ (client malformed_last) always_deletable purger toSkip fuel ""
              _ [manifest "A"; malformed]
              (@sweep_inv_start _ (client malformed_last) always_deletable purger toSkip [] sc))
    as [s3 ->]; try done.
  by exists s3.
Qed.

(** C2. A run in which the first page is listed, its manifest is deleted
    by a worker, and the second listing call fails: the sweep returns the
    count 0 with the error, although one deletion was done. *)
Theorem sweep_listing_error_loses_count :
  exists s',
    sweep listing_fails 2 ∅ [[]; [0%nat]] = Done (0, Some "listing failed") s' /\
    deletions (calls s') = 1%nat /\ deleted s' = 1 /\ deleted_digests (calls s') = ["A"].
Proof. eexists. split; [vm_compute; reflexivity |]. by vm_compute. Qed.

(** The same listing with workers that make no progress before the
    failure: the submitted task is left in the queue. *)
Example sweep_listing_error_leaves_queue :
  exists s',
    sweep listing_fails 2 ∅ [] = Done (0, Some "listing failed") s' /\
    queue s' = [ManifestTask "A"] /\ deleted_digests (calls s') = [].
Proof. eexists. split; [vm_compute; reflexivity |]. by vm_compute. Qed.

(** C5, as it was stated: on three pages of one manifest each the sweep
    does not make exactly three listing calls; it makes four. *)
Lemma sweep_three_pages_not_three_calls :
  list_cursors (calls (final (sweep three_pages 10 ∅ []))) = [""; "A"; "B"; "C"] /\
  length (list_cursors (calls (final (sweep three_pages 10 ∅ [])))) <> 3%nat.
Proof. by vm_compute. Qed.

Lemma sweep_pagination_witness :
  exists n err s',
    sweep three_pages 4 ∅ [[]; [0%nat]] = Done (n, err) s' /\
    list_cursors (calls s') = [""; "A"; "B"; "C"].
Proof.
  apply (@sweep_pagination _ (client three_pages) always_deletable 0 purger ∅ []
           [[]; [0%nat]] (manifest "A") (manifest "B") (manifest "C") "A" "B" "C");
    try reflexivity; intros w'; split; reflexivity.
Defined.

Lemma purge_not_found_is_success_witness :
  (exists s', @Part001.PurgeTags _ (client healthy) purger tags (initial ["v2"] [[1%nat]])
              = Done (2, None) s') /\
  (exists s', @Part001.PurgeManifests _ (client healthy) purger manifests
                (initial ["v2"] [[1%nat]]) = Done (3, None) s') /\
  (exists s', @Worker.PurgeTags _ (client healthy) purger tags (initial ["v2"] [[1%nat]])
              = Done (2, None) s') /\
  (exists s', @Worker.PurgeManifests _ (client healthy) purger manifests
                (initial ["v2"] [[1%nat]]) = Done (3, None) s').
Proof.
  apply (@purge_not_found_is_success _ (client healthy) purger ["v2"] [[1%nat]]
           tags manifests).
  - vm_compute. reflexivity.
  - vm_compute. reflexivity.
  - constructor; [| constructor; [| constructor]];
      eexists; (split; [reflexivity |]); intros w';
      apply delete_recoverable; simpl; apply not_elem_of_nil.
  - constructor; [| constructor; [| constructor; [| constructor]]];
      intros w'; apply delete_recoverable; simpl; apply not_elem_of_nil.
Defined.

Lemma purge_count_plus_failures_witness :
  accounted 2 (@Part001.PurgeTags _ (client one_failing) purger tags (initial [] [[1%nat]])) /\
  accounted 3 (@Part001.PurgeManifests _ (client one_failing) purger manifests
                 (initial [] [[1%nat]])) /\
  accounted 2 (@Worker.PurgeTags _ (client one_failing) purger tags (initial [] [[1%nat]])) /\
  accounted 3 (@Worker.PurgeManifests _ (client one_failing) purger manifests
                 (initial [] [[1%nat]])).
Proof.
  apply (@purge_count_plus_failures _ (client one_failing) purger [] [[1%nat]]
           tags manifests).
  - vm_compute. reflexivity.
  - vm_compute. reflexivity.
  - constructor; [| constructor; [| constructor]]; by eexists.
Defined.

Lemma sweep_repository_not_found_witness :
  exists s', sweep no_repository 1 ∅ [] = Done (0, None) s'.
Proof.
  apply (@sweep_repository_not_found _ (client no_repository) always_deletable 1 purger ∅
           [] []).
  exists "repo", "", "", repository_not_found. split.
  - vm_compute. constructor.
  - by eexists _, _, _.
Defined.

Lemma sweep_listing_error_abandons_tasks_witness :
  exists err s' cs0 c,
    sweep listing_fails 2 ∅ [] = Done (0, err) s' /\
    calls s' = cs0 ++ [c] /\ failed_listing c /\ no_failed_listing cs0 /\
    map ManifestTask (deleted_digests (calls s')) ++ queue s' ≡ₚ submitted s' /\
    deleted s' = wrap64 (Z.of_nat (deletions (calls s'))).
Proof.
  apply (@sweep_listing_error_abandons_tasks _ (client listing_fails) always_deletable 2
           purger ∅ [] []).
  exists (CallGetAcrManifests "repo" "" "A" listing_failed). split.
  - vm_compute. right. constructor.
  - by eexists.
Defined.

Lemma sweep_skip_set_witness :
  exists s',
    sweep one_page 2 {["B"]} [[]; [1%nat]] = Done (2, None) s' /\
    deleted_digests (calls s') ≡ₚ ["A"; "C"].
Proof.
  apply (proj2 (@sweep_skip_set _ (client one_page) always_deletable purger []
                  [[]; [1%nat]])
           0%nat (manifest "A") (manifest "B") (manifest "C") "A" "B" "C");
    try reflexivity; try discriminate.
  - intros w'; split; reflexivity.
  - intros w'; split; reflexivity.
  - intros digest w'. apply delete_recoverable. simpl. apply not_elem_of_nil.
Defined.

End Runs.

(** * Further properties *)

(** ** More on [PurgeTags] and [PurgeManifests] *)

Lemma pick_tasks_nil picks : pick_tasks picks [] = ([], []).
Proof. by destruct picks. Qed.

Lemma first_error_Some cs e :
  first_error cs = Some e -> exists c, c ∈ cs /\ failed_with e c.
Proof.
  induction cs as [| c cs IH]; simpl; [done |].
  destruct (delete_reply c) as [r |] eqn:Hr.
  - destruct (delete_error r) as [e' |] eqn:He.
    + intros [= ->]. exists c. split; [by left |]. exists r. split; [done |].
      unfold delete_error in He. destruct r as [resp [e'' |]]; simpl in *; [| done].
      destruct (is_not_found resp); [done |]. by injection He as ->.
    + intros (c' & Hin & Hf)%IH. exists c'. split; [by right | done].
  - intros (c' & Hin & Hf)%IH. exists c'. split; [by right | done].
Qed.

Section MorePurgeFacts.

Context {World : Type} `{Client : AcrCLIClientInterface World}.

Local Abbreviation respects := (respects (World := World)).

(** The calls a run of tag tasks makes. *)
Lemma tag_calls p order cs tags :
  Forall2 (called p) order cs -> order ≡ₚ map TagTask tags ->
  Some <$> deleted_tags cs ≡ₚ Name <$> tags /\ deleted_digests cs = [] /\
  list_cursors cs = [] /\ Forall (fun c => call_repository c = repoName p) cs.
Proof.
  intros Hcalled Hperm.
  assert (Hall : Forall (fun t => exists tag, t = TagTask tag) order).
  { rewrite Hperm. apply Forall_map. apply Forall_true. intros tag. by exists tag. }
  assert (H : TagTask <$> (omap (fun name => Some {| Name := Some name |}) (deleted_tags cs))
              = order /\ deleted_digests cs = [] /\ list_cursors cs = [] /\
              Forall (fun c => call_repository c = repoName p) cs).
  { clear Hperm. induction Hcalled as [| t c order cs Hc _ IH]; [done |].
    inversion Hall as [| ? ? [tag Ht] Hall']; subst.
    destruct (IH Hall') as (IH1 & IH2 & IH3 & IH4).
    simpl in Hc. destruct Hc as (name & w & Hn & ->).
    cbn [deleted_tags deleted_digests list_cursors omap list_omap fmap list_fmap].
    fold (deleted_tags cs). fold (deleted_digests cs). fold (list_cursors cs).
    split_and!; try done.
    - cbn [omap list_omap fmap list_fmap]. f_equal; [| exact IH1].
      destruct tag as [n]. simpl in Hn. by rewrite Hn.
    - by constructor. }
  destruct H as (H1 & H2 & H3 & H4). split_and!; try done.
  rewrite <- H1 in Hperm.
  apply (fmap_Permutation (fun t => match t with TagTask tag => Name tag | _ => None end))
    in Hperm.
  rewrite <- !list_fmap_compose in Hperm.
  etrans; [| etrans; [exact Hperm |]].
  - clear. induction (deleted_tags cs) as [| n l IH]; [done |]. simpl. by rewrite <- IH.
  - clear. induction tags as [| t l IH]; [done |]. simpl. by rewrite <- IH.
Qed.

(** The calls a run of manifest tasks makes. *)
Lemma digest_calls p order cs manifests :
  Forall2 (called p) order cs -> order ≡ₚ map ManifestTask manifests ->
  deleted_digests cs ≡ₚ manifests /\ deleted_tags cs = [] /\
  list_cursors cs = [] /\ Forall (fun c => call_repository c = repoName p) cs.
Proof.
  intros Hcalled Hperm.
  assert (Hall : Forall is_manifest_task order).
  { rewrite Hperm. apply Forall_map. by apply Forall_true. }
  destruct (manifest_calls p order cs Hcalled Hall) as (H1 & H2 & _ & H4 & _).
  split_and!; try done.
  - rewrite <- H1 in Hperm. apply (fmap_Permutation digest_of) in Hperm.
    rewrite <- !list_fmap_compose in Hperm. simpl in Hperm.
    by rewrite !list_fmap_id in Hperm.
  - clear -Hcalled Hall. induction Hcalled as [| t c order cs Hc _ IH]; [done |].
    inversion_clear Hall as [| ? ? Ht Hall']. destruct t; [done |].
    simpl in Hc. destruct Hc as (w & ->). simpl. by apply IH.
  - eapply Forall_impl; [exact H4 |]. intros [] Hc; simpl in *; try done; by destruct Hc.
Qed.

(** What a purge reports, from what it comes to. *)
Lemma purged_reported p total w sc r :
  purged p total (initial w sc) r -> Z.of_nat (length total) < 2 ^ 63 -> reported r.
Proof.
  intros (s' & cs & order & -> & Hperm & Hcalled & Hcalls & _) Hlen.
  simpl in Hcalls. subst cs.
  pose proof (deletions_failures p order _ Hcalled) as Hsum. rewrite Hperm in Hsum.
  eexists _, _, s'. split; [reflexivity |]. split_and!.
  - apply wrap64_small. lia.
  - done.
  - apply first_error_None.
  - apply first_error_Some.
Qed.



(** X1. The two versions of [PurgeManifests] end the same way on every
    list of digests, registry and schedule: same count, same error, same
    calls on the registry, same registry afterwards; only their output
    differs. *)
Theorem PurgeManifests_versions_agree (p : Purger) (manifests : list string)
    (w : World) (sc : list (list nat)) :
  same_result (Part001.PurgeManifests p manifests (initial w sc))
              (Worker.PurgeManifests p manifests (initial w sc)).
Proof.
  assert (Hinit : same_but_output (initial w sc) (initial w sc)) by by split_and!.
  revert Hinit. generalize (initial w sc) at 1 3. generalize (initial w sc).
  intros s2 s1.
  fold (respects (Part001.PurgeManifests p manifests) (Worker.PurgeManifests p manifests)).
  unfold Part001.PurgeManifests, Worker.PurgeManifests.
  apply respects_emit_l.
  apply respects_bind; [apply respects_Int64_new | intros _].
  apply respects_bind; [apply respects_NewGroup | intros _].
  apply respects_bind; [apply respects_for_each; intros d; apply respects_SubmitErr | intros _].
  apply respects_bind.
  - apply (respects_Wait p); [apply Part001_runs_tasks | apply Worker_runs_tasks].
  - intros err. apply respects_bind; [apply respects_Load | intros n].
    apply respects_emit_l, respects_ret.
Qed.


(** X3. What [PurgeTags] and [PurgeManifests] (both versions of each)
    return, for named tags and lists shorter than 2^63: the count is the
    number of delete calls that succeeded or failed with not-found; the
    error is nil exactly when no delete call failed otherwise, and else it
    is the error value the registry client returned for the first such
    call to finish, not wrapped. *)
Theorem purge_reports_first_failure (p : Purger) (w : World) (sc : list (list nat))
    (tags : list TagAttributesBase) (manifests : list string) :
  Z.of_nat (length tags) < 2 ^ 63 ->
  Z.of_nat (length manifests) < 2 ^ 63 ->
  Forall named tags ->
  reported (Part001.PurgeTags p tags (initial w sc)) /\
  reported (Part001.PurgeManifests p manifests (initial w sc)) /\
  reported (Worker.PurgeTags p tags (initial w sc)) /\
  reported (Worker.PurgeManifests p manifests (initial w sc)).
Proof.
  intros Hlt Hlm Hnamed.
  rewrite <- (length_map TagTask tags) in Hlt.
  rewrite <- (length_map ManifestTask manifests) in Hlm.
  split_and!.
  - apply (purged_reported p (map TagTask tags) w sc); [| done].
    by apply Part001_PurgeTags_purged.
  - apply (purged_reported p (map ManifestTask manifests) w sc); [| done].
    by apply Part001_PurgeManifests_purged.
  - apply (purged_reported p (map TagTask tags) w sc); [| done].
    by apply Worker_PurgeTags_purged.
  - apply (purged_reported p (map ManifestTask manifests) w sc); [| done].
    by apply Worker_PurgeManifests_purged.
Qed.

(** X4. On an empty list, [PurgeTags] and [PurgeManifests] (both versions
    of each) return [(0, nil)] under every schedule, without a call on the
    registry, which they leave as it was. *)
Theorem purge_of_nothing (p : Purger) (w : World) (sc : list (list nat)) :
  did_nothing w (Part001.PurgeTags p [] (initial w sc)) /\
  did_nothing w (Part001.PurgeManifests p [] (initial w sc)) /\
  did_nothing w (Worker.PurgeTags p [] (initial w sc)) /\
  did_nothing w (Worker.PurgeManifests p [] (initial w sc)).
Proof.
  unfold did_nothing, Part001.PurgeTags, Part001.PurgeManifests, Worker.PurgeTags,
    Worker.PurgeManifests, Wait, bind, next_choice, emit, Int64_new, NewGroup, Load, ret.
  destruct sc as [| picks sc]; simpl; rewrite ?pick_tasks_nil; simpl;
    split_and!; by eexists.
Qed.

(** X5. A purge of tags followed by a purge of manifests on the same
    purger: each call starts a counter and a group of its own, so each
    returns the count and the first error of its own delete calls only,
    and the calls of the second all come after those of the first. *)
Theorem purge_tags_then_manifests (p : Purger) (w : World) (sc : list (list nat))
    (tags : list TagAttributesBase) (manifests : list string) :
  Z.of_nat (length tags) < 2 ^ 63 ->
  Z.of_nat (length manifests) < 2 ^ 63 ->
  Forall named tags ->
  exists cs1 cs2 s',
    (let* r1 := Part001.PurgeTags p tags in
     let* r2 := Part001.PurgeManifests p manifests in
     ret (r1, r2)) (initial w sc)
    = Done ((Z.of_nat (deletions cs1), first_error cs1),
            (Z.of_nat (deletions cs2), first_error cs2)) s' /\
    calls s' = cs1 ++ cs2 /\
    Some <$> deleted_tags cs1 ≡ₚ Name <$> tags /\ deleted_digests cs1 = [] /\
    deleted_digests cs2 ≡ₚ manifests /\ deleted_tags cs2 = [].
Proof.
  intros Hlt Hlm Hnamed. unfold bind at 1.
  destruct (Part001_PurgeTags_purged p tags (initial w sc) Hnamed)
    as (s1 & cs1 & order1 & -> & Hperm1 & Hcalled1 & Hcalls1 & _).
  unfold bind at 1.
  destruct (Part001_PurgeManifests_purged p manifests s1)
    as (s2 & cs2 & order2 & -> & Hperm2 & Hcalled2 & Hcalls2 & _).
  simpl in Hcalls1.
  destruct (tag_calls p order1 cs1 tags Hcalled1 Hperm1) as (Ht1 & Ht2 & _).
  destruct (digest_calls p order2 cs2 manifests Hcalled2 Hperm2) as (Hm1 & Hm2 & _).
  pose proof (deletions_failures p order1 cs1 Hcalled1) as Hsum1.
  pose proof (deletions_failures p order2 cs2 Hcalled2) as Hsum2.
  rewrite Hperm1, length_map in Hsum1. rewrite Hperm2, length_map in Hsum2.
  exists cs1, cs2, s2. rewrite !wrap64_small by lia.
  split_and!; try done. by rewrite Hcalls2, Hcalls1.
Qed.

End MorePurgeFacts.

(** ** The count does not depend on the schedule *)


Lemma count_if_le {A} (f : A -> bool) (l : list A) : (count_if f l <= length l)%nat.
Proof. induction l as [| x l IH]; simpl; [lia |]. destruct (f x); lia. Qed.

Lemma count_if_length {A} (f : A -> bool) (l : list A) :
  count_if f l = length l <-> Forall (fun x => f x = true) l.
Proof.
  induction l as [| x l IH]; simpl; [by split |].
  pose proof (count_if_le f l) as Hle. rewrite Forall_cons.
  destruct (f x); split.
  - intros H'. split; [done |]. apply IH. lia.
  - intros [_ H']. apply IH in H'. lia.
  - lia.
  - by intros [].
Qed.

Section ScheduleFacts.

Context {World : Type} `{Client : AcrCLIClientInterface World}.



End ScheduleFacts.

(** ** More on the untagged sweep *)

Lemma listings_app cs1 cs2 : listings (cs1 ++ cs2) = listings cs1 ++ listings cs2.
Proof. apply omap_app. Qed.


Section MoreSweepFacts.

Context {World : Type} `{Client : AcrCLIClientInterface World}.

Variable IsManifestDeletable : ManifestAttributesBase -> bool.

Local Abbreviation sweep := (Part001.PurgeUntaggedManifests IsManifestDeletable).
Local Abbreviation loop := (Part001.PurgeUntaggedManifests_loop IsManifestDeletable).

Lemma called_listings p now cs : Forall2 (called p) now cs -> listings cs = [].
Proof.
  induction 1 as [| t c now cs Hc _ IH]; [done |].
  destruct t as [tag | digest]; simpl in Hc.
  - by destruct Hc as (name & w & _ & ->).
  - by destruct Hc as (w & ->).
Qed.

(** The calls of a sweep are manifest deletes and listings of its
    repository; each delete counts as deleted or as failed. *)
Lemma sweep_trace p cs :
  Forall (from_registry p) cs ->
  Forall (sweep_call (repoName p)) cs /\
  (deletions cs + failures cs)%nat = length (deleted_digests cs).
Proof.
  unfold deletions, failures.
  induction 1 as [| c cs Hc _ [IH1 IH2]]; [done |].
  destruct c as [| repo digest r | repo filter cursor r]; [done | |]; simpl in Hc.
  - destruct Hc as [-> _]. split; [by constructor |].
    cbn [count_calls deleted_digests omap list_omap length]. fold (deleted_digests cs).
    unfold deleted_call at 1, failed_call at 1. cbn [delete_reply].
    destruct (counts_as_deleted r); simpl; lia.
  - destruct Hc as (-> & -> & _). split; [by constructor |].
    cbn [count_calls deleted_digests omap list_omap]. fold (deleted_digests cs).
    unfold deleted_call at 1, failed_call at 1. cbn [delete_reply]. simpl. lia.
Qed.


(** X8. When a listing call of the sweep returns an error, the sweep
    returns count 0 and: no error if the reply has a response of status
    not-found; else that very error, also when the reply is nil or has no
    response. *)
Theorem sweep_returns_listing_error (fuel : nat) (p : Purger) (toSkip : gset string)
    (w : World) (sc : list (list nat)) (repo filter cursor : string)
    (rm : option Manifests) (e : error) :
  CallGetAcrManifests repo filter cursor (rm, Some e)
    ∈ calls (final (sweep fuel p toSkip (initial w sc))) ->
  exists s',
    sweep fuel p toSkip (initial w sc)
    = Done (0, if Part001.list_not_found rm then None else Some e) s'.
Proof.
  intros Hin.
  assert (Hfail : failed_listing (CallGetAcrManifests repo filter cursor (rm, Some e)))
    by by eexists.
  destruct (sweep_cases IsManifestDeletable p toSkip fuel w sc) as [_ Hpost].
  destruct (sweep fuel p toSkip (initial w sc)) as [[n err] s' | s' | s']; cbn [final] in Hin.
  - destruct Hpost as [(Hno & _) | (-> & cs0 & cursor' & reply' & e' & Hcalls & Hno & He & ->)].
    + by destruct (no_failed_listing_elem _ _ Hno Hin).
    + rewrite Hcalls in Hin. apply elem_of_app in Hin as [Hin | Hin].
      * by destruct (no_failed_listing_elem _ _ Hno Hin).
      * apply list_elem_of_singleton in Hin. injection Hin as _ _ _ <-.
        simpl in He. injection He as <-. by exists s'.
  - destruct Hpost as [Hno _]. by destruct (no_failed_listing_elem _ _ Hno Hin).
  - by destruct (no_failed_listing_elem _ _ Hpost Hin).
Qed.

(** X9. On a repository whose first listing is empty or absent, the sweep
    returns [(0, nil)] after that one listing call, with the empty
    cursor, and no delete call, whatever the skip-set and the schedule. *)
Theorem sweep_of_empty_repository (fuel : nat) (p : Purger) (toSkip : gset string)
    (w : World) (sc : list (list nat)) :
  (forall w', page_of (GetAcrManifests (repoName p) "" "" w').1 = [] /\
              (GetAcrManifests (repoName p) "" "" w').1.2 = None) ->
  exists s',
    sweep (S fuel) p toSkip (initial w sc) = Done (0, None) s' /\
    list_cursors (calls s') = [""] /\ deleted_digests (calls s') = [] /\
    submitted s' = [].
Proof.
  intros Hempty.
  unfold Part001.PurgeUntaggedManifests, bind at 1 2 3, Int64_new, NewGroup.
  destruct (loop_end IsManifestDeletable p toSkip fuel "" _
              (sweep_inv_start IsManifestDeletable p toSkip w sc) Hempty)
    as (s2 & -> & Hinv2 & Hcur2 & Hsub2).
  unfold bind, Load, ret.
  destruct (sweep_join IsManifestDeletable p toSkip s2 Hinv2)
    as (s' & -> & Hinv' & Hq & Hcur' & _ & Hsub' & _).
  destruct Hinv' as [_ Hdel Herr Hperm _ Hcalls].
  rewrite Hq, app_nil_r, Hsub', Hsub2 in Hperm. simpl in Hperm.
  apply Permutation_nil_r, fmap_nil_inv in Hperm.
  destruct (sweep_trace p (calls s') Hcalls) as [_ Hsum]. rewrite Hperm in Hsum.
  simpl in Hsum.
  assert (Hd : deletions (calls s') = 0%nat) by lia.
  assert (Hf : failures (calls s') = 0%nat) by lia.
  exists s'. split_and!.
  - by rewrite Hdel, Herr, Hd, (proj2 (first_error_None _) Hf).
  - by rewrite Hcur', Hcur2.
  - done.
  - by rewrite Hsub', Hsub2.
Qed.

Lemma loop_round_listings p toSkip fuel cursor s :
  sweep_inv IsManifestDeletable p toSkip s ->
  exists s1,
    loop (S fuel) p toSkip cursor s = after_yield IsManifestDeletable p toSkip fuel cursor s1 /\
    sweep_inv IsManifestDeletable p toSkip s1 /\
    listings (calls s1) = listings (calls s).
Proof.
  intros Hinv. rewrite loop_unfold.
  destruct (yield_spec p _ (Part001_runs_tasks p) s)
    as (s1 & cs & now & -> & Hperm & Hran & _).
  { apply manifest_tasks_have_names, Hinv. }
  { by apply (sweep_inv_int IsManifestDeletable p toSkip). }
  exists s1. split; [done |]. split.
  - by apply (sweep_inv_ran IsManifestDeletable p toSkip now cs s s1).
  - destruct Hran as [Hcalled Hcalls _ _ _].
    by rewrite Hcalls, listings_app, (called_listings p now cs Hcalled), app_nil_r.
Qed.

Lemma loop_chain p toSkip fuel cursor s :
  sweep_inv IsManifestDeletable p toSkip s ->
  exists l,
    listings (calls (final (loop fuel p toSkip cursor s))) = listings (calls s) ++ l /\
    cursor_chain cursor l.
Proof.
  revert cursor s. induction fuel as [| fuel IH]; intros cursor s Hinv.
  { exists []. by rewrite app_nil_r. }
  destruct (loop_round_listings p toSkip fuel cursor s Hinv) as (s1 & -> & Hinv1 & <-).
  pose proof (sweep_inv_listed IsManifestDeletable p toSkip cursor s1 Hinv1) as Hinv2.
  assert (Hone : listings (calls (listed p cursor s1))
                 = listings (calls s1) ++ [(cursor, list_reply p cursor s1)]).
  { cbn [listed add_call set_world calls]. by rewrite listings_app. }
  unfold after_yield.
  destruct (list_reply p cursor s1).2 as [e |] eqn:Herr.
  { eexists. split; [exact Hone | done]. }
  destruct (page_of (list_reply p cursor s1)) as [| m ms] eqn:Hpage.
  { eexists. split; [exact Hone | done]. }
  rewrite <- Hpage in *.
  destruct (mbind Digest (last (page_of (list_reply p cursor s1)))) as [d |] eqn:Hlast.
  - destruct (IH d _ Hinv2) as (l & Hl & Hchain).
    exists ((cursor, list_reply p cursor s1) :: l). split.
    + rewrite Hl. cbn [enqueue calls]. rewrite Hone. by rewrite <- app_assoc.
    + split; [done |]. destruct l; [done |]. split; [done |]. by exists d.
  - eexists. split; [exact Hone | done].
Qed.

Lemma cursor_chain_lookup cursor l :
  cursor_chain cursor l ->
  (forall c r, l !! 0%nat = Some (c, r) -> c = cursor) /\
  (forall i c1 r1 c2 r2, l !! i = Some (c1, r1) -> l !! S i = Some (c2, r2) ->
     r1.2 = None /\ mbind Digest (last (page_of r1)) = Some c2).
Proof.
  revert cursor. induction l as [| [c r] l IH]; intros cursor Hchain; [done |].
  destruct Hchain as [-> Hrest]. split; [by intros c' r' [= -> ->] |].
  intros i c1 r1 c2 r2 H1 H2.
  destruct l as [| [c' r'] l]; [done |].
  destruct Hrest as (Hok & d & Hd & Hchain).
  destruct (IH d Hchain) as [Hhead Htail].
  destruct i as [| i].
  - simpl in H1, H2. injection H1 as <- <-. injection H2 as <- <-.
    split; [done |]. rewrite Hd. f_equal. symmetry. by apply (Hhead c' r').
  - by apply (Htail i c1 r1 c2 r2).
Qed.

(** X10. In every run of the sweep, however it ends, the first listing
    call has the empty cursor, and every listing call after another one
    follows a reply without error and has for cursor the digest of the
    last record of the page of that reply. *)
Theorem sweep_cursors_follow_pages (fuel : nat) (p : Purger) (toSkip : gset string)
    (w : World) (sc : list (list nat)) :
  let l := listings (calls (final (sweep fuel p toSkip (initial w sc)))) in
  (forall c r, l !! 0%nat = Some (c, r) -> c = "") /\
  (forall i c1 r1 c2 r2, l !! i = Some (c1, r1) -> l !! S i = Some (c2, r2) ->
     r1.2 = None /\ mbind Digest (last (page_of r1)) = Some c2).
Proof.
  intros l. apply cursor_chain_lookup.
  destruct (loop_chain p toSkip fuel "" _ (sweep_inv_start IsManifestDeletable p toSkip w sc))
    as (l0 & Hl0 & Hchain).
  assert (Hl : l = l0); [| by rewrite Hl].
  unfold l, Part001.PurgeUntaggedManifests, bind at 1 2 3, Int64_new, NewGroup.
  pose proof (loop_cases IsManifestDeletable p toSkip fuel "" _
                (sweep_inv_start IsManifestDeletable p toSkip w sc)) as Hpost.
  match type of Hl0 with listings (calls (final ?r)) = _ =>
    destruct r as [[| n err] s1 | s1 | s1] eqn:Hr end;
    cbn [final] in Hl0; (destruct Hpost as [Hinv _]; [by constructor |]);
    cbn [final] in Hinv; try (simpl in Hl0; exact Hl0).
  unfold bind, Load, ret.
  destruct (Wait_spec p _ (Part001_runs_tasks p) s1)
    as (s' & cs & order & -> & _ & [Hcalled Hcalls _ _ _] & _).
  { apply manifest_tasks_have_names, Hinv. }
  { by apply (sweep_inv_int IsManifestDeletable p toSkip). }
  cbn [final]. rewrite Hcalls, listings_app, (called_listings p order cs Hcalled), app_nil_r.
  exact Hl0.
Qed.

Lemma loop_never_ends p toSkip fuel cursor s :
  (forall cursor w',
     (GetAcrManifests (repoName p) "" cursor w').1.2 = None /\
     exists d, mbind Digest (last (page_of (GetAcrManifests (repoName p) "" cursor w').1))
               = Some d) ->
  sweep_inv IsManifestDeletable p toSkip s ->
  exists s',
    loop fuel p toSkip cursor s = OutOfFuel s' /\
    length (list_cursors (calls s')) = (length (list_cursors (calls s)) + fuel)%nat.
Proof.
  intros Hpages. revert cursor s. induction fuel as [| fuel IH]; intros cursor s Hinv.
  { exists s. split; [done | lia]. }
  destruct (loop_round IsManifestDeletable p toSkip fuel cursor s Hinv)
    as (s1 & -> & Hinv1 & Hcur & _).
  pose proof (sweep_inv_listed IsManifestDeletable p toSkip cursor s1 Hinv1) as Hinv2.
  destruct (Hpages cursor (world s1)) as (Herr & d & Hd).
  fold (list_reply p cursor s1) in Herr, Hd.
  unfold after_yield. rewrite Herr, Hd.
  destruct (page_of (list_reply p cursor s1)) as [| m ms] eqn:Hpage; [done |].
  rewrite <- Hpage in *.
  destruct (IH d _ Hinv2) as (s' & -> & Hlen). exists s'. split; [done |].
  rewrite Hlen. cbn [enqueue listed add_call set_world calls].
  rewrite list_cursors_app, length_app, Hcur. simpl. lia.
Qed.

(** X11. The sweep has no bound on its rounds and no check that the
    cursor advances: as long as every listing call returns, without
    error, a page whose last record has a digest, it goes on listing; after
    any number of rounds it has made that many listing calls and has not
    returned. *)
Theorem sweep_goes_on_while_pages_come (fuel : nat) (p : Purger) (toSkip : gset string)
    (w : World) (sc : list (list nat)) :
  (forall cursor w',
     (GetAcrManifests (repoName p) "" cursor w').1.2 = None /\
     exists d, mbind Digest (last (page_of (GetAcrManifests (repoName p) "" cursor w').1))
               = Some d) ->
  exists s',
    sweep fuel p toSkip (initial w sc) = OutOfFuel s' /\
    length (list_cursors (calls s')) = fuel.
Proof.
  intros Hpages.
  unfold Part001.PurgeUntaggedManifests, bind at 1 2 3, Int64_new, NewGroup.
  destruct (loop_never_ends p toSkip fuel "" _ Hpages
              (sweep_inv_start IsManifestDeletable p toSkip w sc)) as (s' & -> & Hlen).
  by exists s'.
Qed.

(** X12. In every run of the sweep, however it ends, every call on the
    registry is a manifest delete or a listing with the empty filter, on
    the repository of the purger: the sweep deletes no tag and touches no
    other repository. *)
Theorem sweep_stays_in_its_repository (fuel : nat) (p : Purger) (toSkip : gset string)
    (w : World) (sc : list (list nat)) :
  Forall (sweep_call (repoName p))
         (calls (final (sweep fuel p toSkip (initial w sc)))).
Proof.
  destruct (sweep_cases IsManifestDeletable p toSkip fuel w sc) as [Hinv _].
  destruct Hinv as [_ _ _ _ _ Hcalls]. by apply sweep_trace.
Qed.

(** X15. The sweep panics in one way only: when it does, no listing call
    has failed and the last record of the page listed last has no
    digest. *)
Theorem sweep_panics_only_on_nil_last_digest (fuel : nat) (p : Purger)
    (toSkip : gset string) (w : World) (sc : list (list nat)) (s' : State World) :
  sweep fuel p toSkip (initial w sc) = Panic s' ->
  no_failed_listing (calls s') /\
  exists m, last (listed_records (calls s')) = Some m /\ Digest m = None.
Proof.
  intros Hrun.
  destruct (sweep_cases IsManifestDeletable p toSkip fuel w sc) as [_ Hpost].
  by rewrite Hrun in Hpost.
Qed.

End MoreSweepFacts.

(** ** What is printed and logged *)

Section OutputFacts.

Context {World : Type} `{Client : AcrCLIClientInterface World}.

Ltac run_closure :=
  unfold task_result, after_delete, counts_as_deleted, delete_error,
    bind, deref, emit, Add, ret, panic, is_not_found,
    call_DeleteAcrTag, call_DeleteManifest; simpl.



Variable p : Purger.
Variable run : Task -> M World (option error).
Variable kind : Output -> Prop.
Hypothesis Hone : forall t s, exists line, kind line /\ run t s = task_result p t [line] s.




End OutputFacts.

Section OutputClaims.

Context {World : Type} `{Client : AcrCLIClientInterface World}.



End OutputClaims.

(** ** Further concrete runs *)

Module MoreRuns.
Import Mock Scripts.


Lemma purge_reports_first_failure_witness :
  reported (@Part001.PurgeTags _ (client one_failing) purger tags (initial [] [[1%nat]])) /\
  reported (@Part001.PurgeManifests _ (client one_failing) purger manifests
              (initial [] [[1%nat]])) /\
  reported (@Worker.PurgeTags _ (client one_failing) purger tags (initial [] [[1%nat]])) /\
  reported (@Worker.PurgeManifests _ (client one_failing) purger manifests
              (initial [] [[1%nat]])).
Proof.
  apply (@purge_reports_first_failure _ (client one_failing) purger [] [[1%nat]]
           tags manifests).
  - vm_compute. reflexivity.
  - vm_compute. reflexivity.
  - constructor; [| constructor; [| constructor]]; by eexists.
Defined.

Lemma purge_tags_then_manifests_witness :
  exists cs1 cs2 s',
    (let* r1 := @Part001.PurgeTags _ (client one_failing) purger tags in
     let* r2 := @Part001.PurgeManifests _ (client one_failing) purger manifests in
     ret (r1, r2)) (initial [] [[1%nat]; [2%nat]])
    = Done ((Z.of_nat (deletions cs1), first_error cs1),
            (Z.of_nat (deletions cs2), first_error cs2)) s' /\
    calls s' = cs1 ++ cs2 /\
    Some <$> deleted_tags cs1 ≡ₚ Name <$> tags /\ deleted_digests cs1 = [] /\
    deleted_digests cs2 ≡ₚ manifests /\ deleted_tags cs2 = [].
Proof.
  apply (@purge_tags_then_manifests _ (client one_failing) purger [] [[1%nat]; [2%nat]]
           tags manifests).
  - vm_compute. reflexivity.
  - vm_compute. reflexivity.
  - constructor; [| constructor; [| constructor]]; by eexists.
Defined.



Lemma sweep_returns_listing_error_witness :
  exists s', sweep listing_fails 2 ∅ [] = Done (0, Some "listing failed") s'.
Proof.
  apply (@sweep_returns_listing_error _ (client listing_fails) always_deletable 2 purger ∅
           [] [] "repo" "" "A"
           (Some {| Manifests_Response := {| Response := Some {| StatusCode := 500 |} |};
                    ManifestsAttributes := None |}) "listing failed").
  vm_compute. right. constructor.
Defined.

Lemma sweep_of_empty_repository_witness :
  exists s',
    sweep healthy 1 {["B"]} [[0%nat]] = Done (0, None) s' /\
    list_cursors (calls s') = [""] /\ deleted_digests (calls s') = [] /\
    submitted s' = [].
Proof.
  apply (@sweep_of_empty_repository _ (client healthy) always_deletable 0 purger {["B"]}
           [] [[0%nat]]).
  intros w'. split; reflexivity.
Defined.

Lemma sweep_goes_on_while_pages_come_witness :
  exists s',
    @Part001.PurgeUntaggedManifests _ Stuck.client always_deletable 5 purger ∅
      (initial tt []) = OutOfFuel s' /\
    length (list_cursors (calls s')) = 5%nat.
Proof.
  apply (@sweep_goes_on_while_pages_come _ Stuck.client always_deletable 5 purger ∅ tt []).
  intros cursor w'. split; [reflexivity |]. by exists "A".
Defined.

Lemma sweep_panics_only_on_nil_last_digest_witness :
  exists s',
    sweep malformed_last 1 ∅ [] = Panic s' /\
    no_failed_listing (calls s') /\
    exists m, last (listed_records (calls s')) = Some m /\ Digest m = None.
Proof.
  eexists. split; [vm_compute; reflexivity |].
  apply (@sweep_panics_only_on_nil_last_digest _ (client malformed_last) always_deletable
           1 purger ∅ [] []).
  vm_compute. reflexivity.
Defined.


End MoreRuns.
